(** * SharedConsciousness: a shallow embedding of the three scripts

    The repository is three independent Python scripts:

    - [fetch_chatgpt.py]: a cookie-authenticated HTTP client that pulls one
      conversation and flattens its message tree ([ChatGPTClient]);
    - [mcp_server.py]: a tool endpoint that writes one JSON file per saved
      conversation under [archive/<date>/] ([save_conversation]);
    - [web_ui.py]: a browser for that archive, plus two screens of constant
      sample data.

    Python values are embedded as the type [json] of what [json.load] can
    return; exceptions as the [Raise] arm of [result]; the file system, the
    console, the client object and the network as explicit state threaded by
    a small state-and-exception monad [M].  *)

From Stdlib Require Import ZArith QArith String Ascii DecimalString.
From stdpp Require Import base option list strings gmap sorting.

Set Warnings "-register-all".

Open Scope string_scope.
Open Scope list_scope.
Open Scope Z_scope.

(** ** Exceptions and results *)

Inductive exn : Type :=
| KeyError
| TypeError
| AttributeError
| JSONDecodeError
| FileExistsError
| FileNotFoundError
| NotADirectoryError
| IsADirectoryError
| UnicodeDecodeError.

Inductive result (A : Type) : Type :=
| Ok (a : A)
| Raise (e : exn).
Arguments Ok {A} a.
Arguments Raise {A} e.

#[global] Instance result_ret : MRet result := λ A a, Ok a.
#[global] Instance result_bind : MBind result := λ A B f r,
  match r with Ok a => f a | Raise e => Raise e end.

#[global] Instance result_fmap : FMap result := λ A B f r,
  match r with Ok a => Ok (f a) | Raise e => Raise e end.

Definition is_ok {A} (r : result A) : bool :=
  match r with Ok _ => true | Raise _ => false end.

(** [for x in xs: acc = body(acc, x)] where the body may raise. *)
Fixpoint foldlR {A B} (body : B → A → result B) (acc : B) (xs : list A)
  : result B :=
  match xs with
  | [] => Ok acc
  | x :: xs' => acc' ← body acc x; foldlR body acc' xs'
  end.

Fixpoint mapR {A B} (f : A → result B) (xs : list A) : result (list B) :=
  match xs with
  | [] => Ok []
  | x :: xs' => y ← f x; ys ← mapR f xs'; Ok (y :: ys)
  end.

(** ** Python strings

    A [str] is embedded as a [string] whose characters are the code points
    below 256; comparison of [string]s is then comparison of code points,
    as in Python. *)

Definition dq : string := String (ascii_of_nat 34) "".
Definition nl : string := String (ascii_of_nat 10) "".

(** [str.isspace] on one character of that range. *)
Definition isspace (c : ascii) : bool :=
  let n := nat_of_ascii c in
  ((9 <=? n) && (n <=? 13) || (28 <=? n) && (n <=? 32)
   || (n =? 133) || (n =? 160))%nat.

Fixpoint lstrip (s : string) : string :=
  match s with
  | "" => ""
  | String c t => if isspace c then lstrip t else s
  end.

Fixpoint rstrip (s : string) : string :=
  match s with
  | "" => ""
  | String c t =>
      match rstrip t with
      | "" => if isspace c then "" else String c ""
      | t' => String c t'
      end
  end.

Definition strip (s : string) : string := rstrip (lstrip s).

Definition str_nonempty (s : string) : bool :=
  match s with "" => false | _ => true end.

(** [s[:n]] *)
Fixpoint str_take (n : nat) (s : string) : string :=
  match n, s with
  | S n', String c t => String c (str_take n' t)
  | _, _ => ""
  end.

Fixpoint str_drop (n : nat) (s : string) : string :=
  match n, s with
  | S n', String _ t => str_drop n' t
  | _, _ => s
  end.

(** [s.endswith(suffix)] *)
Definition endswith (s suffix : string) : bool :=
  (String.length suffix <=? String.length s)%nat
  && String.eqb (str_drop (String.length s - String.length suffix) s) suffix.

(** [needle in hay] *)
Fixpoint str_contains (needle hay : string) : bool :=
  String.prefix needle hay
  || match hay with
     | "" => false
     | String _ t => str_contains needle t
     end.

(** The characters of a string, each as a one-character string. *)
Fixpoint str_chars (s : string) : list string :=
  match s with
  | "" => []
  | String c t => String c "" :: str_chars t
  end.

(** [sep.join(l)] *)
Definition str_join (sep : string) (l : list string) : string :=
  String.concat sep l.

(** [s.replace(old, new)] for a one-character [old]. *)
Fixpoint str_replace (old : ascii) (new : string) (s : string) : string :=
  match s with
  | "" => ""
  | String c t =>
      if Ascii.eqb c old then new +:+ str_replace old new t
      else String c (str_replace old new t)
  end.

Definition is_lower (c : ascii) : bool :=
  let n := nat_of_ascii c in ((97 <=? n) && (n <=? 122))%nat.
Definition is_upper (c : ascii) : bool :=
  let n := nat_of_ascii c in ((65 <=? n) && (n <=? 90))%nat.
Definition to_upper (c : ascii) : ascii :=
  if is_lower c then ascii_of_nat (nat_of_ascii c - 32) else c.
Definition to_lower (c : ascii) : ascii :=
  if is_upper c then ascii_of_nat (nat_of_ascii c + 32) else c.

(** [s.title()]: a cased letter is upper-cased after an uncased character
    and lower-cased after a cased one. *)
Fixpoint title_from (prev_cased : bool) (s : string) : string :=
  match s with
  | "" => ""
  | String c t =>
      let cased := is_lower c || is_upper c in
      String (if prev_cased then to_lower c else to_upper c)
             (title_from cased t)
  end.
Definition str_title (s : string) : string := title_from false s.

(** [str(z)] for an [int]. *)
Definition str_of_Z (z : Z) : string := NilZero.string_of_int (Z.to_int z).

(** [f"{z:0{w}d}"] for a non-negative [z]: decimal, left-padded with
    zeros to width [w]. *)
Fixpoint zeros (n : nat) : string :=
  match n with O => "" | S n' => String "0" (zeros n') end.
Definition zero_pad (w : nat) (z : Z) : string :=
  let s := str_of_Z z in zeros (w - String.length s) +:+ s.

(** ** Python values

    The values [json.load] produces and [json.dump] accepts.  A [dict] keeps
    its insertion order, so it is an association list; [dict_get] reads the
    first binding of a key and [alist_set] overwrites it in place.

    A [float] is finite, an infinity or NaN: the decoder reads the last
    three from the literals [Infinity], [-Infinity] and [NaN].  A finite
    float is embedded by its exact rational value, which is what Python
    compares it by, also against an [int]. *)

Inductive pyfloat : Type :=
| Finite (q : Q)
| Inf (negative : bool)
| NaN.

Inductive json : Type :=
| JNull
| JBool (b : bool)
| JInt (z : Z)
| JFloat (x : pyfloat)
| JStr (s : string)
| JList (l : list json)
| JObj (kvs : list (string * json)).

Fixpoint alist_get {V} (k : string) (kvs : list (string * V)) : option V :=
  match kvs with
  | [] => None
  | (k', v) :: rest => if String.eqb k k' then Some v else alist_get k rest
  end.

Fixpoint alist_set {V} (k : string) (v : V) (kvs : list (string * V))
  : list (string * V) :=
  match kvs with
  | [] => [(k, v)]
  | (k', v') :: rest =>
      if String.eqb k k' then (k, v) :: rest
      else (k', v') :: alist_set k v rest
  end.

(** [bool(v)]; of the floats only the zeros are false. *)
Definition truthy (v : json) : bool :=
  match v with
  | JNull => false
  | JBool b => b
  | JInt z => negb (z =? 0)
  | JFloat (Finite q) => negb (Qeq_bool q 0)
  | JFloat _ => true
  | JStr s => str_nonempty s
  | JList l => match l with [] => false | _ => true end
  | JObj kvs => match kvs with [] => false | _ => true end
  end.

(** [a or b] *)
Definition py_or (a b : json) : json := if truthy a then a else b.

(** [d.get(k, dflt)] *)
Definition dict_get (d : json) (k : string) (dflt : json) : result json :=
  match d with
  | JObj kvs => Ok (default dflt (alist_get k kvs))
  | _ => Raise AttributeError
  end.

(** [d.get(k)] *)
Definition dict_get_none (d : json) (k : string) : result json :=
  dict_get d k JNull.

(** [d[k]] for a string [k] *)
Definition getitem (d : json) (k : string) : result json :=
  match d with
  | JObj kvs =>
      match alist_get k kvs with Some v => Ok v | None => Raise KeyError end
  | _ => Raise TypeError
  end.

(** [d[k] = v] for a string [k]; the updated object is returned. *)
Definition setitem (d : json) (k : string) (v : json) : result json :=
  match d with
  | JObj kvs => Ok (JObj (alist_set k v kvs))
  | _ => Raise TypeError
  end.

(** [d.items()] *)
Definition dict_items (d : json) : result (list (string * json)) :=
  match d with
  | JObj kvs => Ok kvs
  | _ => Raise AttributeError
  end.

(** [iter(v)]: what a [for] loop or a comprehension runs over. *)
Definition py_iter (v : json) : result (list json) :=
  match v with
  | JList l => Ok l
  | JStr s => Ok (JStr <$> str_chars s)
  | JObj kvs => Ok ((λ kv, JStr kv.1) <$> kvs)
  | _ => Raise TypeError
  end.

(** [len(v)] *)
Definition py_len (v : json) : result nat :=
  match v with
  | JList l => Ok (length l)
  | JStr s => Ok (String.length s)
  | JObj kvs => Ok (length kvs)
  | _ => Raise TypeError
  end.

(** [v[:n]] *)
Definition py_slice_to (n : nat) (v : json) : result json :=
  match v with
  | JList l => Ok (JList (take n l))
  | JStr s => Ok (JStr (str_take n s))
  | _ => Raise TypeError
  end.

(** [v == s] for a string literal [s] *)
Definition eq_str (v : json) (s : string) : bool :=
  match v with JStr t => String.eqb t s | _ => false end.

(** ** Comparing values

    An [int], a [float] and a [bool] compare by value; NaN is neither
    smaller than, nor equal to, nor larger than anything. *)

Definition num_of (v : json) : option pyfloat :=
  match v with
  | JBool b => Some (Finite (if b then 1%Q else 0%Q))
  | JInt z => Some (Finite (inject_Z z))
  | JFloat x => Some x
  | _ => None
  end.

Definition Qlt_bool (x y : Q) : bool := negb (Qle_bool y x).

(** [x < y], [x == y] and [x <= y] on floats *)
Definition float_lt (x y : pyfloat) : bool :=
  match x, y with
  | Finite p, Finite q => Qlt_bool p q
  | Finite _, Inf negative => negb negative
  | Inf negative, Finite _ => negative
  | Inf negative, Inf negative' => negative && negb negative'
  | _, _ => false
  end.

Definition float_eq (x y : pyfloat) : bool :=
  match x, y with
  | Finite p, Finite q => Qeq_bool p q
  | Inf negative, Inf negative' => Bool.eqb negative negative'
  | _, _ => false
  end.

Definition float_le (x y : pyfloat) : bool := float_lt x y || float_eq x y.

(** Whether two items of a container count as the same when containers
    are compared: they are the same object, or they are [==].  The one
    value that is not [==] to itself is NaN, and every NaN the JSON decoder
    returns is the one object [json.decoder.NaN]; so two items are the same
    when they are NaN both, or equal numbers, or equal strings, or lists
    with the same items in turn, or objects with the same keys and the
    same items under them. *)
Fixpoint py_same (a b : json) {struct a} : bool :=
  match a, b with
  | JNull, JNull => true
  | JStr s, JStr t => String.eqb s t
  | JList l, JList m =>
      (fix items (l m : list json) {struct l} : bool :=
         match l, m with
         | [], [] => true
         | x :: l', y :: m' => py_same x y && items l' m'
         | _, _ => false
         end) l m
  | JObj kvs, JObj kvs' =>
      (length kvs =? length kvs')%nat
      && (fix items (kvs : list (string * json)) : bool :=
            match kvs with
            | [] => true
            | (k, v) :: rest =>
                match alist_get k kvs' with
                | Some v' => py_same v v'
                | None => false
                end && items rest
            end) kvs
  | _, _ =>
      match num_of a, num_of b with
      | Some NaN, Some NaN => true
      | Some x, Some y => float_eq x y
      | _, _ => false
      end
  end.

(** [a < b]: numbers compare by value, strings by code points, and lists
    by the first pair of items that are not the same, or by length when
    one is a prefix of the other; any other pairing is a [TypeError]. *)
Fixpoint py_lt (a b : json) {struct a} : result bool :=
  match a, b with
  | JStr s, JStr t => Ok (String.ltb s t)
  | JList l, JList m =>
      (fix items (l m : list json) {struct l} : result bool :=
         match l, m with
         | [], [] => Ok false
         | [], _ :: _ => Ok true
         | _ :: _, [] => Ok false
         | x :: l', y :: m' => if py_same x y then items l' m' else py_lt x y
         end) l m
  | _, _ =>
      match num_of a, num_of b with
      | Some x, Some y => Ok (float_lt x y)
      | _, _ => Raise TypeError
      end
  end.

(** ** [list.sort]

    [l.sort(key=key)] computes the key of every element, then sorts the
    keys, asking [<] of two keys at a time, and moves the elements along
    with their keys.  The sort is CPython's ([listobject.c], versions 3.10
    to 3.12).  A list of fewer than 64 elements is sorted as one run:
    [count_run] finds how far the list is already in order from its start,
    either never descending or strictly descending (and then reversed),
    and [binarysort] inserts the remaining elements one by one at the
    place a binary search gives. *)

Section ListSort.
Context {A : Type}.
Implicit Types (x : json * A) (l run : list (json * A)).

(** The length of the run that continues after an element of key [prev],
    strictly descending or never descending. *)
Fixpoint run_descending (prev : json) l : result nat :=
  match l with
  | [] => Ok O
  | x :: l' =>
      b ← py_lt x.1 prev;
      if b : bool then n ← run_descending x.1 l'; Ok (S n) else Ok O
  end.

Fixpoint run_ascending (prev : json) l : result nat :=
  match l with
  | [] => Ok O
  | x :: l' =>
      b ← py_lt x.1 prev;
      if b : bool then Ok O else n ← run_ascending x.1 l'; Ok (S n)
  end.

(** [count_run]: the length of the run the list starts with, and whether
    it descends. *)
Definition count_run l : result (nat * bool) :=
  match l with
  | [] => Ok (O, false)
  | [x] => Ok (1%nat, false)
  | x :: y :: l' =>
      b ← py_lt y.1 x.1;
      if b : bool then n ← run_descending y.1 l'; Ok (S (S n), true)
      else n ← run_ascending y.1 l'; Ok (S (S n), false)
  end.

(** The binary search of [binarysort] for the place of [pivot] in the
    sorted [run], between the indices [lo] and [hi]; [steps] bounds the
    number of halvings, and [hi - lo] of them are enough. *)
Fixpoint bisect (steps : nat) (pivot : json) run (lo hi : nat)
  : result nat :=
  match steps with
  | O => Ok lo
  | S steps' =>
      let p := (lo + (hi - lo) / 2)%nat in
      match run !! p with
      | None => Ok lo
      | Some y =>
          b ← py_lt pivot y.1;
          let lo' := if b : bool then lo else S p in
          let hi' := if b : bool then p else hi in
          if (lo' <? hi')%nat then bisect steps' pivot run lo' hi'
          else Ok lo'
      end
  end.

(** One pass of [binarysort]: [x] goes to its place in [run]. *)
Definition binary_insert run x : result (list (json * A)) :=
  i ← bisect (length run) x.1 run 0 (length run);
  Ok (take i run ++ x :: drop i run).

Definition binarysort run l : result (list (json * A)) :=
  foldlR binary_insert run l.

(** The sort of a list of fewer than 64 keyed elements. *)
Definition sort_one_run l : result (list (json * A)) :=
  if (length l <? 2)%nat then Ok l else
  '(n, descending) ← count_run l;
  let run := take n l in
  binarysort (if descending : bool then reverse run else run) (drop n l).
End ListSort.

(** What the language promises of [list.sort], said of keyed elements:
    the sort is stable, that is, where [<] orders the keys consistently
    the result is the one list in which no element comes after one with a
    larger key, and elements with keys of the same rank keep their order.
    That list is what inserting the elements one after the other, each
    behind every element it is not smaller than, builds. *)
Definition lt_bool (a b : json) : bool :=
  match py_lt a b with Ok b => b | Raise _ => false end.

Fixpoint insert_behind {A} (x : json * A) (l : list (json * A))
  : list (json * A) :=
  match l with
  | [] => [x]
  | y :: l' =>
      if lt_bool x.1 y.1 then x :: y :: l' else y :: insert_behind x l'
  end.

Definition stable_sorted {A} (l : list (json * A)) : list (json * A) :=
  foldl (λ acc x, insert_behind x acc) [] l.

(** [<] orders the keys [ks] consistently: it answers for any two of
    them, never both ways, and "not larger" is transitive. *)
Definition consistent (ks : list json) : Prop :=
  (∀ a b, a ∈ ks → b ∈ ks → is_ok (py_lt a b) = true)
  ∧ (∀ a b, a ∈ ks → b ∈ ks → lt_bool a b = true → lt_bool b a = false)
  ∧ (∀ a b c, a ∈ ks → b ∈ ks → c ∈ ks →
       lt_bool b a = false → lt_bool c b = false → lt_bool c a = false).

(** A list of 64 elements or more CPython cuts into runs of 32 to 64
    elements, each put in order as above, and merges the runs.  The
    merging is not embedded: [merge_runs] stands for the sort of such a
    list, with what the language promises of it. *)
Class Timsort : Type := {
  merge_runs : ∀ {A}, list (json * A) → result (list (json * A));
  merge_runs_perm : ∀ A (l l' : list (json * A)),
    (64 ≤ length l)%nat → merge_runs l = Ok l' → l' ≡ₚ l;
  merge_runs_stable : ∀ A (l : list (json * A)),
    (64 ≤ length l)%nat → consistent l.*1 →
    merge_runs l = Ok (stable_sorted l);
}.

Definition list_sort {timsort : Timsort} {A} (key : A → result json)
  (l : list A) : result (list A) :=
  keyed ← mapR (λ x, k ← key x; Ok (k, x)) l;
  sorted ← (if (length keyed <? 64)%nat then sort_one_run keyed
            else merge_runs keyed);
  Ok (sorted.*2).

(** What the interpreter and the installation fix: [repr] of a value that
    is not a string or an integer, and the directory the scripts live in. *)
Class Platform : Type := {
  py_repr : json → string;
  ARCHIVE_DIR : string;
}.

(** [str(v)], which is also what an f-string field [{v}] shows. *)
Definition py_str {platform : Platform} (v : json) : string :=
  match v with
  | JStr s => s
  | JInt z => str_of_Z z
  | JBool true => "True"
  | JBool false => "False"
  | JNull => "None"
  | _ => py_repr v
  end.

(** ** State and exceptions

    A computation reads and updates a state [S] and either returns or
    raises; what it did to the state before raising stays done. *)

Definition M (S A : Type) : Type := S → result A * S.

#[global] Instance M_ret {S} : MRet (M S) := λ A a s, (Ok a, s).
#[global] Instance M_bind {S} : MBind (M S) := λ A B f c s,
  match c s with
  | (Ok a, s') => f a s'
  | (Raise e, s') => (Raise e, s')
  end.

Definition lift {S A} (r : result A) : M S A := λ s, (r, s).
Definition gets {S A} (f : S → A) : M S A := λ s, (Ok (f s), s).
Definition modify {S} (f : S → S) : M S unit := λ s, (Ok (), f s).

(** [if b: c] *)
Definition when {S} (b : bool) (c : M S unit) : M S unit :=
  if b then c else mret ().

(** [try: c  except Exception: handler] *)
Definition try_except {S A} (c handler : M S A) : M S A := λ s,
  match c s with
  | (Ok a, s') => (Ok a, s')
  | (Raise _, s') => handler s'
  end.

(** [for x in xs: acc = body(acc, x)] *)
Fixpoint foldlM {S A B} (body : B → A → M S B) (acc : B) (xs : list A)
  : M S B :=
  match xs with
  | [] => mret acc
  | x :: xs' => acc' ← body acc x; foldlM body acc' xs'
  end.

(** A [for] loop whose body may [return v] out of the enclosing function:
    the body answers [Some v] for that and [None] to go on. *)
Fixpoint for_return {S A B} (xs : list A) (body : A → M S (option B))
  : M S (option B) :=
  match xs with
  | [] => mret None
  | x :: xs' =>
      r ← body x;
      match r with
      | Some v => mret (Some v)
      | None => for_return xs' body
      end
  end.

(** * fetch_chatgpt.py *)

Module ChatGPTClient.

Definition BASE_URL : string := "https://chatgpt.com".

(** One call of [requests.get(url, params=, cookies=, headers=)]. *)
Record request : Type := {
  url : string;
  params : list (string * json);
  req_cookies : list (string * string);
  req_headers : list (string * string);
}.

(** What the client reads of a response: [status_code], and [json()],
    which raises when the body is not a JSON document. *)
Record response : Type := {
  status_code : Z;
  json_body : option json;
}.

Definition response_json (r : response) : result json :=
  match json_body r with Some v => Ok v | None => Raise JSONDecodeError end.

(** The attributes of a [ChatGPTClient] object. *)
Record client : Type := {
  cookies : list (string * string);
  headers : list (string * string);
  access_token : json;
}.

(** The client together with the requests it has sent so far. *)
Record session : Type := {
  self : client;
  sent : list request;
}.

Definition set_access_token (t : json) (s : session) : session :=
  {| self := {| cookies := cookies (self s); headers := headers (self s);
                access_token := t |};
     sent := sent s |}.

Definition set_header (k v : string) (s : session) : session :=
  {| self := {| cookies := cookies (self s);
                headers := alist_set k v (headers (self s));
                access_token := access_token (self s) |};
     sent := sent s |}.

(** [ChatGPTClient(cookies)] *)
Definition init (cookies : list (string * string)) : client :=
  {| cookies := cookies;
     headers :=
       [("accept", "application/json");
        ("user-agent",
         "Mozilla/5.0 (Macintosh; Intel Mac OS X 10_15_7) AppleWebKit/537.36 (KHTML, like Gecko) Chrome/141.0.0.0 Safari/537.36");
        ("referer", "https://chatgpt.com/")];
     access_token := JNull |}.

Section Network.
Context {platform : Platform}.
(** The remote service: its answer to a request, given the requests it
    has already received. *)
Variable server : list request → request → response.

Definition requests_get (u : string) (ps : list (string * json))
  : M session response := λ s,
  let req := {| url := u; params := ps;
                req_cookies := cookies (self s);
                req_headers := headers (self s) |} in
  (Ok (server (sent s) req),
   {| self := self s; sent := sent s ++ [req] |}).

Definition get_access_token : M session json :=
  response ← requests_get (BASE_URL +:+ "/api/auth/session") [];
  if status_code response =? 200 then
    data ← lift (response_json response);
    token ← lift (dict_get_none data "accessToken");
    _ ← modify (set_access_token token);
    _ ← when (truthy token)
          (modify (set_header "authorization" ("Bearer " +:+ py_str token)));
    gets (λ s, access_token (self s))
  else mret JNull.

Definition get_conversation (conversation_id : string) : M session json :=
  token ← gets (λ s, access_token (self s));
  _ ← when (negb (truthy token)) (_ ← get_access_token; mret ());
  response ← requests_get
    (BASE_URL +:+ "/backend-api/conversation/" +:+ conversation_id) [];
  if status_code response =? 200 then lift (response_json response)
  else mret JNull.

Definition list_conversations (limit offset : Z) : M session json :=
  token ← gets (λ s, access_token (self s));
  _ ← when (negb (truthy token)) (_ ← get_access_token; mret ());
  response ← requests_get
    (BASE_URL +:+ "/backend-api/conversations")
    [("limit", JInt limit); ("offset", JInt offset)];
  if status_code response =? 200 then lift (response_json response)
  else mret JNull.
End Network.

Section Extract.
Context {platform : Platform} {timsort : Timsort}.

(** The body of the loop over [mapping.items()]: [messages] is the list
    built so far, and a [continue] hands it back unchanged. *)
Definition extract_node (messages : list json) (item : string * json)
  : result (list json) :=
  let node_id := item.1 in
  let node := item.2 in
  msg ← dict_get_none node "message";
  if negb (truthy msg) then Ok messages else
  author_obj ← dict_get msg "author" (JObj []);
  author ← dict_get author_obj "role" (JStr "unknown");
  content ← dict_get msg "content" (JObj []);
  metadata ← dict_get msg "metadata" (JObj []);
  hidden ← dict_get_none metadata "is_visually_hidden_from_conversation";
  if truthy hidden then Ok messages else
  content_type ← dict_get_none content "content_type";
  if eq_str content_type "text" then
    parts ← dict_get content "parts" (JList []);
    ps ← py_iter parts;
    let text := str_join nl (py_str <$> filter (λ p, truthy p = true) ps) in
    if str_nonempty (strip text) then
      create_time ← dict_get_none msg "create_time";
      parent ← dict_get_none node "parent";
      Ok (messages ++
          [JObj [("id", JStr node_id);
                 ("role", author);
                 ("content", JStr text);
                 ("create_time", create_time);
                 ("parent", parent)]])
    else Ok messages
  else Ok messages.

(** [key=lambda m: m.get("create_time") or 0] *)
Definition sort_key (m : json) : result json :=
  t ← dict_get_none m "create_time"; Ok (py_or t (JInt 0)).

Definition extract_messages (conversation_data : json)
  : result (list json) :=
  mapping ← dict_get conversation_data "mapping" (JObj []);
  items ← dict_items mapping;
  messages ← foldlR extract_node [] items;
  list_sort sort_key messages.
End Extract.

End ChatGPTClient.

(** * The archive on disk and the console *)

(** What a file holds, known by what reading it as JSON gives: a document
    holding a value (however it is laid out), text that does not parse, or
    bytes that are not text.  [json.dump] and [json.dumps] write the
    document of their argument, and [json.load] reads it back or raises. *)
Inductive text : Type :=
| Raw (s : string)
| Document (v : json)
| Binary.

Definition json_dump (v : json) : text := Document v.

Definition json_load (t : text) : result json :=
  match t with
  | Document v => Ok v
  | Raw _ => Raise JSONDecodeError
  | Binary => Raise UnicodeDecodeError
  end.

(** What is at a path: a regular file, or a directory of named entries.
    Every entry is taken to be one the scripts may read and write; links
    and special files are left out. *)
Inductive tree : Type :=
| File (t : text)
| Dir (entries : gmap string tree).

(** What is at [ARCHIVE_DIR] ([None] while nothing is; the directory the
    scripts are in, its parent, is there), and the lines printed so far. *)
Record world : Type := {
  fs : option tree;
  stdout : list string;
}.

(** The order in which the operating system lists a directory. *)
Class Listing : Type := {
  listdir : ∀ {A}, gmap string A → list (string * A);
  listdir_perm : ∀ A (m : gmap string A), listdir m ≡ₚ map_to_list m;
}.

(** The entries of a directory; a path that is not a directory has
    none. *)
Definition entries_of (t : option tree) : gmap string tree :=
  match t with Some (Dir entries) => entries | _ => ∅ end.

(** What is at [ARCHIVE_DIR / d], and at [ARCHIVE_DIR / d / f]. *)
Definition lookup_entry (w : world) (d : string) : option tree :=
  entries_of (fs w) !! d.

Definition lookup_path (w : world) (d f : string) : option tree :=
  entries_of (lookup_entry w d) !! f.

(** The content of the regular file [ARCHIVE_DIR / d / f]. *)
Definition lookup_file (w : world) (d f : string) : option text :=
  match lookup_path w d f with
  | Some (File t) => Some t
  | _ => None
  end.

Section FileSystem.
Context {platform : Platform} {listing : Listing}.

(** [str(ARCHIVE_DIR / d / f)] *)
Definition path_str (d f : string) : string :=
  ARCHIVE_DIR +:+ "/" +:+ d +:+ "/" +:+ f.

(** [ARCHIVE_DIR.exists()] *)
Definition archive_exists : M world bool :=
  gets (λ w, match fs w with Some _ => true | None => false end).

(** [ARCHIVE_DIR.iterdir()], each entry by its name *)
Definition iterdir : M world (list string) := λ w,
  match fs w with
  | Some (Dir root) => (Ok (listdir root).*1, w)
  | Some (File _) => (Raise NotADirectoryError, w)
  | None => (Raise FileNotFoundError, w)
  end.

(** [(ARCHIVE_DIR / d).is_dir()] *)
Definition is_dir (d : string) : M world bool :=
  gets (λ w, match lookup_entry w d with
             | Some (Dir _) => true
             | _ => false
             end).

(** [(ARCHIVE_DIR / d).glob("*.json")], each match by its name; what
    matches may be a file or a directory. *)
Definition glob_json (d : string) : M world (list string) :=
  gets (λ w, filter (λ f, endswith f ".json" = true)
               (listdir (entries_of (lookup_entry w d))).*1).

(** [open(ARCHIVE_DIR / d / f)] and reading what it holds *)
Definition open_read (d f : string) : M world text := λ w,
  match fs w with
  | Some (Dir root) =>
      match root !! d with
      | Some (Dir files) =>
          match files !! f with
          | Some (File t) => (Ok t, w)
          | Some (Dir _) => (Raise IsADirectoryError, w)
          | None => (Raise FileNotFoundError, w)
          end
      | Some (File _) => (Raise NotADirectoryError, w)
      | None => (Raise FileNotFoundError, w)
      end
  | Some (File _) => (Raise NotADirectoryError, w)
  | None => (Raise FileNotFoundError, w)
  end.

(** [(ARCHIVE_DIR / d).mkdir(parents=True, exist_ok=True)] *)
Definition mkdir (d : string) : M world unit := λ w,
  match fs w with
  | Some (Dir root) =>
      match root !! d with
      | Some (Dir _) => (Ok (), w)
      | Some (File _) => (Raise FileExistsError, w)
      | None =>
          (Ok (), {| fs := Some (Dir (<[d := Dir ∅]> root));
                     stdout := stdout w |})
      end
  | Some (File _) => (Raise NotADirectoryError, w)
  | None =>
      (Ok (), {| fs := Some (Dir {[d := Dir ∅]}); stdout := stdout w |})
  end.

(** [open(ARCHIVE_DIR / d / f, "w")] and writing [t] *)
Definition open_write (d f : string) (t : text) : M world unit := λ w,
  match fs w with
  | Some (Dir root) =>
      match root !! d with
      | Some (Dir files) =>
          match files !! f with
          | Some (Dir _) => (Raise IsADirectoryError, w)
          | _ =>
              (Ok (), {| fs := Some (Dir (<[d := Dir (<[f := File t]> files)]>
                                            root));
                         stdout := stdout w |})
          end
      | Some (File _) => (Raise NotADirectoryError, w)
      | None => (Raise FileNotFoundError, w)
      end
  | Some (File _) => (Raise NotADirectoryError, w)
  | None => (Raise FileNotFoundError, w)
  end.

(** [print(line)] *)
Definition print (line : string) : M world unit :=
  modify (λ w, {| fs := fs w; stdout := stdout w ++ [line] |}).
End FileSystem.

(** [sorted(names, reverse=True)] *)
Definition name_ge (a b : string) : Prop := String.leb b a = true.
#[global] Instance name_ge_dec a b : Decision (name_ge a b).
Proof. unfold name_ge. apply _. Defined.
Definition sorted_reverse (names : list string) : list string :=
  merge_sort name_ge names.

(** * mcp_server.py *)

Module mcp_server.

(** A naive [datetime]: a year from 1 to 9999, a month, a day and a time
    of day. *)
Record datetime : Type := {
  year : Z; month : Z; day : Z;
  hour : Z; minute : Z; second : Z; microsecond : Z;
}.

(** [t.strftime("%Y-%m-%d")], which the C library formats: the year
    comes as glibc prints it, without padding. *)
Definition strftime_date (t : datetime) : string :=
  str_of_Z (year t) +:+ "-" +:+ zero_pad 2 (month t)
  +:+ "-" +:+ zero_pad 2 (day t).

(** [t.isoformat()], which Python formats itself: the year has four
    digits. *)
Definition isoformat (t : datetime) : string :=
  zero_pad 4 (year t) +:+ "-" +:+ zero_pad 2 (month t)
  +:+ "-" +:+ zero_pad 2 (day t)
  +:+ "T" +:+ zero_pad 2 (hour t) +:+ ":"
  +:+ zero_pad 2 (minute t) +:+ ":" +:+ zero_pad 2 (second t)
  +:+ (if microsecond t =? 0 then ""
       else "." +:+ zero_pad 6 (microsecond t)).

(** What one call draws from outside: the 16 bytes [uuid.uuid4] reads
    from [os.urandom], as the number they spell, and [datetime.utcnow()]. *)
Record draw : Type := {
  urandom : N;
  utcnow : datetime;
}.

(** [UUID(bytes=b, version=4).int]: the variant bits are set to that of
    RFC 4122 and the version to 4. *)
Definition uuid_int (b : N) : N :=
  let i := (b mod 2 ^ 128)%N in
  let i := N.ldiff i (N.shiftl 49152 48) in
  let i := N.lor i (N.shiftl 32768 48) in
  let i := N.ldiff i (N.shiftl 61440 64) in
  N.lor i (N.shiftl 4 76).

(** ['%0{width}x' % n] for a number of at most [width] digits *)
Definition hex_digit (n : N) : ascii :=
  nth (N.to_nat n) (list_ascii_of_string "0123456789abcdef") "0"%char.

Fixpoint hex (width : nat) (n : N) : string :=
  match width with
  | O => ""
  | S width' =>
      hex width' (n / 16)%N +:+ String (hex_digit (n mod 16)%N) ""
  end.

(** [str(u)] for a UUID of number [i] *)
Definition uuid_str (i : N) : string :=
  let h := hex 32 i in
  str_take 8 h +:+ "-" +:+ str_take 4 (str_drop 8 h) +:+ "-"
  +:+ str_take 4 (str_drop 12 h) +:+ "-" +:+ str_take 4 (str_drop 16 h)
  +:+ "-" +:+ str_drop 20 h.

(** [str(uuid.uuid4())] *)
Definition uuid4 (env : draw) : string := uuid_str (uuid_int (urandom env)).

(** [xs or []] for an optional list of strings *)
Definition or_empty (xs : option (list string)) : json :=
  JList (JStr <$> default [] xs).

Fixpoint str_repeat (n : nat) (s : string) : string :=
  match n with O => "" | S n' => s +:+ str_repeat n' s end.

Section Tool.
Context {platform : Platform} {listing : Listing}.

Definition payload_of (env : draw) (title summary : string)
  (messages : list json) (tags key_points : option (list string)) : json :=
  JObj [("id", JStr (uuid4 env));
        ("title", JStr title);
        ("summary", JStr summary);
        ("messages", JList messages);
        ("tags", or_empty tags);
        ("key_points", or_empty key_points);
        ("saved_at", JStr (isoformat (utcnow env)));
        ("message_count", JInt (Z.of_nat (length messages)))].

Definition receipt_of (env : draw) (title : string) (messages : list json)
  (file_path : string) : json :=
  JObj [("status", JStr "success");
        ("id", JStr (uuid4 env));
        ("title", JStr title);
        ("message_count", JInt (Z.of_nat (length messages)));
        ("saved_at", JStr (isoformat (utcnow env)));
        ("file_path", JStr file_path)].

Definition save_conversation (env : draw) (title summary : string)
  (messages : list json) (tags key_points : option (list string))
  : M world text :=
  let conversation_id := uuid4 env in
  let saved_at := utcnow env in
  let date_str := strftime_date saved_at in
  let payload := payload_of env title summary messages tags key_points in
  _ ← mkdir date_str;
  let file_name := conversation_id +:+ ".json" in
  let file_path := path_str date_str file_name in
  _ ← open_write date_str file_name (json_dump payload);
  _ ← print (nl +:+ str_repeat 60 "=");
  _ ← print "CONVERSATION SAVED";
  _ ← print (str_repeat 60 "=");
  _ ← print ("ID:       " +:+ conversation_id);
  _ ← print ("Title:    " +:+ title);
  _ ← print ("Messages: " +:+ str_of_Z (Z.of_nat (length messages)));
  _ ← print ("Tags:     " +:+ py_str (or_empty tags));
  _ ← print ("File:     " +:+ file_path);
  _ ← print (str_repeat 60 "=" +:+ nl);
  mret (json_dump (receipt_of env title messages file_path)).
End Tool.

End mcp_server.

(** * web_ui.py *)

Module web_ui.

Definition item (id title : string) (views saves : Z) (team : string)
  : json :=
  JObj [("id", JStr id); ("title", JStr title); ("views", JInt views);
        ("saves", JInt saves); ("team", JStr team)].

Definition DUMMY_TRENDING : list json :=
  [item "trending-1" "Q4 Planning Strategy" 342 28 "Product";
   item "trending-2" "API Rate Limiting Discussion" 289 45 "Engineering";
   item "trending-3" "Customer Onboarding Flow" 256 19 "Growth";
   item "trending-4" "Brand Guidelines Update" 198 32 "Design";
   item "trending-5" "Incident Postmortem: Dec 5" 187 67 "SRE"].

Definition feature (name status description : string) : json :=
  JObj [("name", JStr name); ("status", JStr status);
        ("description", JStr description)].

Definition ROADMAP_FEATURES : list json :=
  [feature "Full-text Search" "coming-soon" "Search across all conversations";
   feature "Team Workspaces" "coming-soon" "Organize by team or project";
   feature "AI Auto-tagging" "planned" "Automatic categorization";
   feature "Slack Integration" "planned" "Share directly to channels";
   feature "Analytics Dashboard" "planned" "Usage insights and trends";
   feature "Export to Notion/Confluence" "exploring" "Sync to your wiki"].

(** A Starlette response. *)
Inductive response : Type :=
| HTMLResponse (body : string) (status_code : Z)
| JSONResponse (content : json).

(** The style sheet of every page. *)
Definition style_sheet : string :=
  "    <style>
        * { margin: 0; padding: 0; box-sizing: border-box; }
        body {
            font-family: -apple-system, BlinkMacSystemFont, 'Segoe UI', Roboto, sans-serif;
            background: #0a0a0a;
            color: #e5e5e5;
            min-height: 100vh;
        }
        .container { max-width: 900px; margin: 0 auto; padding: 20px; }

        /* Header */
        header {
            border-bottom: 1px solid #222;
            padding: 16px 0;
            margin-bottom: 32px;
        }
        .header-inner {
            display: flex;
            justify-content: space-between;
            align-items: center;
            max-width: 900px;
            margin: 0 auto;
            padding: 0 20px;
        }
        .logo {
            font-size: 20px;
            font-weight: 600;
            color: #fff;
            text-decoration: none;
        }
        .logo span { color: #3b82f6; }
        nav { display: flex; gap: 8px; }
        .nav-link {
            color: #888;
            text-decoration: none;
            padding: 8px 16px;
            border-radius: 6px;
            font-size: 14px;
            transition: all 0.2s;
        }
        .nav-link:hover { color: #e5e5e5; background: #1a1a1a; }
        .nav-link.active { color: #fff; background: #1a1a1a; }

        /* Page titles */
        h1 { font-size: 28px; font-weight: 600; margin-bottom: 8px; }
        .subtitle { color: #666; margin-bottom: 24px; }

        /* Conversation cards */
        .conv-list { display: flex; flex-direction: column; gap: 12px; }
        .conv-card {
            background: #111;
            border: 1px solid #222;
            border-radius: 8px;
            padding: 16px;
            text-decoration: none;
            color: inherit;
            transition: all 0.2s;
        }
        .conv-card:hover { border-color: #333; background: #151515; }
        .conv-title { font-size: 16px; font-weight: 500; margin-bottom: 6px; }
        .conv-summary { color: #888; font-size: 14px; line-height: 1.5; margin-bottom: 12px; }
        .conv-meta { display: flex; gap: 16px; font-size: 12px; color: #555; }
        .conv-meta span { display: flex; align-items: center; gap: 4px; }
        .tag {
            display: inline-block;
            background: #1a1a2e;
            color: #6366f1;
            padding: 2px 8px;
            border-radius: 4px;
            font-size: 11px;
            margin-right: 4px;
        }

        /* Detail view */
        .back-link { color: #3b82f6; text-decoration: none; font-size: 14px; margin-bottom: 16px; display: inline-block; }
        .back-link:hover { text-decoration: underline; }
        .detail-header { margin-bottom: 24px; }
        .detail-tags { margin: 12px 0; }
        .key-points { background: #111; border-radius: 8px; padding: 16px; margin-bottom: 24px; }
        .key-points h3 { font-size: 14px; color: #888; margin-bottom: 12px; }
        .key-points ul { padding-left: 20px; }
        .key-points li { color: #ccc; margin-bottom: 6px; font-size: 14px; }

        /* Messages */
        .messages { display: flex; flex-direction: column; gap: 16px; }
        .message { padding: 16px; border-radius: 8px; }
        .message.user { background: #1a1a2e; border-left: 3px solid #6366f1; }
        .message.assistant { background: #111; border-left: 3px solid #22c55e; }
        .message-role { font-size: 11px; text-transform: uppercase; color: #666; margin-bottom: 8px; font-weight: 600; }
        .message-content { font-size: 14px; line-height: 1.6; white-space: pre-wrap; }

        /* Trending */
        .trending-card {
            background: #111;
            border: 1px solid #222;
            border-radius: 8px;
            padding: 16px;
            display: flex;
            justify-content: space-between;
            align-items: center;
        }
        .trending-info h3 { font-size: 15px; margin-bottom: 4px; }
        .trending-team { font-size: 12px; color: #666; }
        .trending-stats { display: flex; gap: 16px; font-size: 13px; color: #888; }

        /* Roadmap */
        .roadmap-item {
            background: #111;
            border: 1px solid #222;
            border-radius: 8px;
            padding: 16px;
            display: flex;
            justify-content: space-between;
            align-items: center;
        }
        .roadmap-info h3 { font-size: 15px; margin-bottom: 4px; }
        .roadmap-desc { font-size: 13px; color: #666; }
        .status-badge {
            font-size: 11px;
            padding: 4px 10px;
            border-radius: 12px;
            font-weight: 500;
        }
        .status-badge.coming-soon { background: #1e3a2f; color: #22c55e; }
        .status-badge.planned { background: #1e293b; color: #3b82f6; }
        .status-badge.exploring { background: #2d2418; color: #f59e0b; }

        /* Empty state */
        .empty { text-align: center; padding: 60px 20px; color: #555; }
        .empty h2 { color: #888; margin-bottom: 8px; }
".

Definition nav_items : list (string * string * string) :=
  [("home", "/", "Archive");
   ("trending", "/trending", "Trending");
   ("roadmap", "/roadmap", "Roadmap")].

Definition nav_link (active : string) (item : string * string * string)
  : string :=
  let '(key, href, label) := item in
  "<a href=" +:+ dq
    +:+ href
    +:+ dq +:+ " class=" +:+ dq +:+ "nav-link "
    +:+ (if String.eqb key active then "active" else "")
    +:+ dq +:+ ">"
    +:+ label
    +:+ "</a>".

Definition base_html (title content active : string) : string :=
  let nav_html := str_join "" (nav_link active <$> nav_items) in
  "<!DOCTYPE html>
<html lang=" +:+ dq +:+ "en" +:+ dq +:+ ">
<head>
    <meta charset=" +:+ dq +:+ "UTF-8" +:+ dq +:+ ">
    <meta name=" +:+ dq +:+ "viewport" +:+ dq +:+ " content=" +:+ dq +:+ "width=device-width, initial-scale=1.0" +:+ dq +:+ ">
    <title>"
    +:+ title
    +:+ " - Shared Consciousness</title>
"
    +:+ style_sheet
    +:+ "    </style>
</head>
<body>
    <header>
        <div class=" +:+ dq +:+ "header-inner" +:+ dq +:+ ">
            <a href=" +:+ dq +:+ "/" +:+ dq +:+ " class=" +:+ dq +:+ "logo" +:+ dq +:+ ">Shared <span>Consciousness</span></a>
            <nav>"
    +:+ nav_html
    +:+ "</nav>
        </div>
    </header>
    <div class=" +:+ dq +:+ "container" +:+ dq +:+ ">
        "
    +:+ content
    +:+ "
    </div>
</body>
</html>".

Definition home_empty : string :=
  "
        <h1>Conversation Archive</h1>
        <p class=" +:+ dq +:+ "subtitle" +:+ dq +:+ ">Your team's saved ChatGPT conversations</p>
        <div class=" +:+ dq +:+ "empty" +:+ dq +:+ ">
            <h2>No conversations yet</h2>
            <p>Save a conversation from ChatGPT to see it here.</p>
        </div>
        ".

Definition tag_span (t : string) : string :=
  "<span class=" +:+ dq +:+ "tag" +:+ dq +:+ ">"
    +:+ t
    +:+ "</span>".

Definition card_html (id title summary200 ellipsis tags_html message_count saved : string)
  : string :=
  "
            <a href=" +:+ dq +:+ "/conversation/"
    +:+ id
    +:+ dq +:+ " class=" +:+ dq +:+ "conv-card" +:+ dq +:+ ">
                <div class=" +:+ dq +:+ "conv-title" +:+ dq +:+ ">"
    +:+ title
    +:+ "</div>
                <div class=" +:+ dq +:+ "conv-summary" +:+ dq +:+ ">"
    +:+ summary200
    +:+ ellipsis
    +:+ "</div>
                <div style=" +:+ dq +:+ "margin-bottom: 8px;" +:+ dq +:+ ">"
    +:+ tags_html
    +:+ "</div>
                <div class=" +:+ dq +:+ "conv-meta" +:+ dq +:+ ">
                    <span>"
    +:+ message_count
    +:+ " messages</span>
                    <span>"
    +:+ saved
    +:+ "</span>
                </div>
            </a>
            ".

Definition home_list (cards : list string) : string :=
  "
        <h1>Conversation Archive</h1>
        <p class=" +:+ dq +:+ "subtitle" +:+ dq +:+ ">Your team's saved ChatGPT conversations</p>
        <div class=" +:+ dq +:+ "conv-list" +:+ dq +:+ ">
            "
    +:+ str_join "" cards
    +:+ "
        </div>
        ".

Definition key_points_block (points : string) : string :=
  "
        <div class=" +:+ dq +:+ "key-points" +:+ dq +:+ ">
            <h3>Key Points</h3>
            <ul>"
    +:+ points
    +:+ "</ul>
        </div>
        ".

Definition message_block (role content : string) : string :=
  "
        <div class=" +:+ dq +:+ "message "
    +:+ role
    +:+ dq +:+ ">
            <div class=" +:+ dq +:+ "message-role" +:+ dq +:+ ">"
    +:+ role
    +:+ "</div>
            <div class=" +:+ dq +:+ "message-content" +:+ dq +:+ ">"
    +:+ content
    +:+ "</div>
        </div>
        ".

Definition detail_content (title summary tags_html message_count saved key_points_html : string)
  (messages_html : list string) : string :=
  "
    <a href=" +:+ dq +:+ "/" +:+ dq +:+ " class=" +:+ dq +:+ "back-link" +:+ dq +:+ ">&larr; Back to Archive</a>
    <div class=" +:+ dq +:+ "detail-header" +:+ dq +:+ ">
        <h1>"
    +:+ title
    +:+ "</h1>
        <p class=" +:+ dq +:+ "subtitle" +:+ dq +:+ ">"
    +:+ summary
    +:+ "</p>
        <div class=" +:+ dq +:+ "detail-tags" +:+ dq +:+ ">"
    +:+ tags_html
    +:+ "</div>
        <div class=" +:+ dq +:+ "conv-meta" +:+ dq +:+ ">
            <span>"
    +:+ message_count
    +:+ " messages</span>
            <span>Saved "
    +:+ saved
    +:+ "</span>
        </div>
    </div>
    "
    +:+ key_points_html
    +:+ "
    <h2 style=" +:+ dq +:+ "font-size: 18px; margin-bottom: 16px;" +:+ dq +:+ ">Conversation</h2>
    <div class=" +:+ dq +:+ "messages" +:+ dq +:+ ">
        "
    +:+ str_join "" messages_html
    +:+ "
    </div>
    ".

Definition trending_card (i title team views saves : string) : string :=
  "
        <div class=" +:+ dq +:+ "trending-card" +:+ dq +:+ ">
            <div class=" +:+ dq +:+ "trending-info" +:+ dq +:+ ">
                <h3>"
    +:+ i
    +:+ ". "
    +:+ title
    +:+ "</h3>
                <div class=" +:+ dq +:+ "trending-team" +:+ dq +:+ ">"
    +:+ team
    +:+ "</div>
            </div>
            <div class=" +:+ dq +:+ "trending-stats" +:+ dq +:+ ">
                <span>"
    +:+ views
    +:+ " views</span>
                <span>"
    +:+ saves
    +:+ " saves</span>
            </div>
        </div>
        ".

Definition trending_content (cards : list string) : string :=
  "
    <h1>Trending Conversations</h1>
    <p class=" +:+ dq +:+ "subtitle" +:+ dq +:+ ">Most viewed across your organization this week</p>
    <div class=" +:+ dq +:+ "conv-list" +:+ dq +:+ ">
        "
    +:+ str_join "" cards
    +:+ "
    </div>
    ".

Definition roadmap_item (name description status_class status_label : string)
  : string :=
  "
        <div class=" +:+ dq +:+ "roadmap-item" +:+ dq +:+ ">
            <div class=" +:+ dq +:+ "roadmap-info" +:+ dq +:+ ">
                <h3>"
    +:+ name
    +:+ "</h3>
                <div class=" +:+ dq +:+ "roadmap-desc" +:+ dq +:+ ">"
    +:+ description
    +:+ "</div>
            </div>
            <span class=" +:+ dq +:+ "status-badge "
    +:+ status_class
    +:+ dq +:+ ">"
    +:+ status_label
    +:+ "</span>
        </div>
        ".

Definition roadmap_content (items : list string) : string :=
  "
    <h1>Roadmap</h1>
    <p class=" +:+ dq +:+ "subtitle" +:+ dq +:+ ">What we're building next</p>
    <div class=" +:+ dq +:+ "conv-list" +:+ dq +:+ ">
        "
    +:+ str_join "" items
    +:+ "
    </div>
    ".

Section Archive.
Context {platform : Platform} {listing : Listing}.

(** The body of [try:] in [get_all_conversations]. *)
Definition load_into (conversations : list json) (date_dir json_file : string)
  : M world (list json) :=
  f ← open_read date_dir json_file;
  conv ← lift (json_load f);
  conv ← lift (setitem conv "_file" (JStr (path_str date_dir json_file)));
  mret (conversations ++ [conv]).

Definition get_all_conversations : M world (list json) :=
  ex ← archive_exists;
  if ex : bool then
    date_dirs ← iterdir;
    foldlM (λ conversations date_dir,
      isd ← is_dir date_dir;
      if isd : bool then
        json_files ← glob_json date_dir;
        foldlM (λ conversations json_file,
          try_except (load_into conversations date_dir json_file)
                     (mret conversations))
          conversations (sorted_reverse json_files)
      else mret conversations)
      [] (sorted_reverse date_dirs)
  else mret [].

Definition get_conversation (conv_id : string) : M world json :=
  ex ← archive_exists;
  found ← (if ex : bool then
    date_dirs ← iterdir;
    for_return date_dirs (λ date_dir,
      isd ← is_dir date_dir;
      if isd : bool then
        json_files ← glob_json date_dir;
        for_return json_files (λ json_file,
          if str_contains conv_id json_file then
            f ← open_read date_dir json_file;
            conv ← lift (json_load f);
            mret (Some conv)
          else mret None)
      else mret None)
  else mret None);
  mret (default JNull found).

(** One pass of the loop in [home]: the card of [conv]. *)
Definition render_card (conv : json) : result string :=
  tags ← dict_get conv "tags" (JList []);
  tags3 ← py_slice_to 3 tags;
  ts ← py_iter tags3;
  let tags_html := str_join "" ((λ t, tag_span (py_str t)) <$> ts) in
  saved_at ← dict_get conv "saved_at" (JStr "");
  saved ← py_slice_to 10 saved_at;
  id ← getitem conv "id";
  title ← dict_get conv "title" (JStr "Untitled");
  summary ← dict_get conv "summary" (JStr "");
  summary200 ← py_slice_to 200 summary;
  summary' ← dict_get conv "summary" (JStr "");
  n ← py_len summary';
  let ellipsis := if (200 <? n)%nat then "..." else "" in
  message_count ← dict_get conv "message_count" (JInt 0);
  Ok (card_html (py_str id) (py_str title) (py_str summary200) ellipsis
        tags_html (py_str message_count) (py_str saved)).

Definition home : M world response :=
  conversations ← get_all_conversations;
  if negb (truthy (JList conversations)) then
    mret (HTMLResponse (base_html "Archive" home_empty "home") 200)
  else
    cards ← lift (foldlR (λ cards conv,
                    card ← render_card conv; Ok (cards ++ [card]))
                  [] conversations);
    mret (HTMLResponse (base_html "Archive" (home_list cards) "home") 200).

(** The part of [conversation_detail] after the lookup. *)
Definition render_detail (conv : json) : result response :=
  tags ← dict_get conv "tags" (JList []);
  ts ← py_iter tags;
  let tags_html := str_join "" ((λ t, tag_span (py_str t)) <$> ts) in
  key_points ← dict_get_none conv "key_points";
  key_points_html ←
    (if truthy key_points then
       kps ← getitem conv "key_points";
       ps ← py_iter kps;
       let points :=
         str_join "" ((λ p, "<li>" +:+ py_str p +:+ "</li>") <$> ps) in
       Ok (key_points_block points)
     else Ok "");
  messages ← dict_get conv "messages" (JList []);
  msgs ← py_iter messages;
  messages_html ← foldlR (λ messages_html msg,
      role ← dict_get msg "role" (JStr "user");
      content ← dict_get msg "content" (JStr "");
      Ok (messages_html ++ [message_block (py_str role) (py_str content)]))
    [] msgs;
  title ← dict_get conv "title" (JStr "Untitled");
  summary ← dict_get conv "summary" (JStr "");
  message_count ← dict_get conv "message_count" (JInt 0);
  saved_at ← dict_get conv "saved_at" (JStr "");
  saved ← py_slice_to 10 saved_at;
  let content :=
    detail_content (py_str title) (py_str summary) tags_html
      (py_str message_count) (py_str saved) key_points_html messages_html in
  page_title ← dict_get conv "title" (JStr "Conversation");
  Ok (HTMLResponse (base_html (py_str page_title) content "home") 200).

Definition conversation_detail (conv_id : string) : M world response :=
  conv ← get_conversation conv_id;
  if negb (truthy conv) then
    mret (HTMLResponse
            (base_html "Not Found" "<h1>Conversation not found</h1>" "home")
            404)
  else lift (render_detail conv).

Definition trending : M world response :=
  cards ← lift (foldlR (λ cards ix,
      let i := ix.1 in
      let item := ix.2 in
      title ← getitem item "title";
      team ← getitem item "team";
      views ← getitem item "views";
      saves ← getitem item "saves";
      Ok (cards ++ [trending_card (str_of_Z i) (py_str title) (py_str team)
                      (py_str views) (py_str saves)]))
    [] (zip (Z.of_nat <$> seq 1 (length DUMMY_TRENDING)) DUMMY_TRENDING));
  mret (HTMLResponse (base_html "Trending" (trending_content cards) "trending")
          200).

Definition roadmap : M world response :=
  items ← lift (foldlR (λ items feature,
      status_class ← getitem feature "status";
      status ← getitem feature "status";
      status_label ←
        match status with
        | JStr s => Ok (str_title (str_replace "-" " " s))
        | _ => Raise AttributeError
        end;
      name ← getitem feature "name";
      description ← getitem feature "description";
      Ok (items ++ [roadmap_item (py_str name) (py_str description)
                      (py_str status_class) status_label]))
    [] ROADMAP_FEATURES);
  mret (HTMLResponse (base_html "Roadmap" (roadmap_content items) "roadmap")
          200).

Definition api_conversations : M world response :=
  conversations ← get_all_conversations;
  mret (JSONResponse (JList conversations)).
End Archive.

End web_ui.

(** * Reasoning about computations *)

(** A computation that leaves the state as it found it. *)
Definition readonly {S A} (c : M S A) : Prop := ∀ s, (c s).2 = s.

(** The first entry of a list of loop-body outcomes that is not "go on". *)
Fixpoint first_stop {B} (l : list (result (option B))) : result (option B) :=
  match l with
  | [] => Ok None
  | Ok None :: l' => first_stop l'
  | r :: _ => r
  end.


(** ** What the archive readers compute

    The loops of [web_ui.get_all_conversations] and [web_ui.get_conversation]
    read as expressions over the archive. *)

Section Readings.
Context {platform : Platform} {listing : Listing}.

(** The path [ARCHIVE_DIR] is taken by a regular file. *)
Definition archive_is_file (w : world) : bool :=
  match fs w with Some (File _) => true | _ => false end.

(** The names [ARCHIVE_DIR.iterdir()] yields, none when there is no
    archive directory. *)
Definition entry_names (w : world) : list string :=
  (listdir (entries_of (fs w))).*1.

(** The names [glob("*.json")] yields in the entry [d]. *)
Definition json_names (w : world) (d : string) : list string :=
  filter (λ f, endswith f ".json" = true)
    (listdir (entries_of (lookup_entry w d))).*1.

(** What one pass of the loading loop appends for the entry [d/f]. *)
Definition loaded (w : world) (d f : string) : list json :=
  match lookup_file w d f with
  | Some (Document (JObj o)) =>
      [JObj (alist_set "_file" (JStr (path_str d f)) o)]
  | _ => []
  end.

Definition all_loaded (w : world) : list json :=
  sorted_reverse (entry_names w) ≫= λ d,
    sorted_reverse (json_names w d) ≫= loaded w d.

(** What opening an entry and reading it as JSON gives. *)
Definition read_json (e : option tree) : result json :=
  match e with
  | Some (File t) => json_load t
  | Some (Dir _) => Raise IsADirectoryError
  | None => Raise FileNotFoundError
  end.

(** What one pass of the lookup loop does with the entry [d/f]. *)
Definition probe (w : world) (conv_id d f : string) : result (option json) :=
  if str_contains conv_id f then Some <$> read_json (lookup_path w d f)
  else Ok None.

Definition probes (w : world) (conv_id : string)
  : list (result (option json)) :=
  entry_names w ≫= λ d, probe w conv_id d <$> json_names w d.
End Readings.

(** ** Concrete surroundings, for running the model *)

Definition demo_platform : Platform :=
  {| py_repr := λ _, "<object>"; ARCHIVE_DIR := "archive" |}.

Definition map_order : Listing :=
  {| listdir := λ A m, map_to_list m;
     listdir_perm := λ A m, reflexivity (map_to_list m) |}.

Definition world_of (root : gmap string tree) : world :=
  {| fs := Some (Dir root); stdout := [] |}.

(** ** Vocabulary of the claims about the archive *)

(** Some [*.json] entry of a directory of the archive has [conv_id] in
    its name. *)
Definition name_matches (w : world) (conv_id : string) : Prop :=
  ∃ d f e, lookup_path w d f = Some e
           ∧ endswith f ".json" = true
           ∧ str_contains conv_id f = true.

(** Every [*.json] entry with [conv_id] in its name is a regular file
    that holds a JSON value of which [good] is true. *)
Definition matches_hold (good : json → bool) (w : world) (conv_id : string)
  : Prop :=
  ∀ d f e, lookup_path w d f = Some e → endswith f ".json" = true →
           str_contains conv_id f = true →
           ∃ v, e = File (Document v) ∧ good v = true.

Definition not_null (v : json) : bool :=
  match v with JNull => false | _ => true end.

(** The page the detail route answers with when it finds nothing. *)
Definition not_found_page : web_ui.response :=
  web_ui.HTMLResponse
    (web_ui.base_html "Not Found" "<h1>Conversation not found</h1>" "home")
    404.

(** An archive with a single file [d/f]. *)
Definition one_file (d f : string) (t : text) : world :=
  world_of {[ d := Dir {[ f := File t ]} ]}.

(** A value that can be sliced and iterated: a list or a string. *)
Definition sliceable (v : json) : Prop :=
  match v with JList _ | JStr _ => True | _ => False end.

(** A conversation object with what [home] needs of it: an ["id"], and
    ["tags"], ["saved_at"] and ["summary"] that are lists or strings when
    present. *)
Definition card_ready (conv : json) : Prop :=
  ∃ o id, conv = JObj o
          ∧ alist_get "id" o = Some id
          ∧ sliceable (default (JList []) (alist_get "tags" o))
          ∧ sliceable (default (JStr "") (alist_get "saved_at" o))
          ∧ sliceable (default (JStr "") (alist_get "summary" o)).

(** The page [home] shows for the conversations [convs]. *)
Definition home_page {platform : Platform} (convs : list json)
  : result web_ui.response :=
  match convs with
  | [] => Ok (web_ui.HTMLResponse
                (web_ui.base_html "Archive" web_ui.home_empty "home") 200)
  | _ =>
      cards ← mapR web_ui.render_card convs;
      Ok (web_ui.HTMLResponse
            (web_ui.base_html "Archive" (web_ui.home_list cards) "home") 200)
  end.

(** A draw of the generator and the clock, and an empty world. *)
Definition demo_draw : mcp_server.draw :=
  {| mcp_server.urandom := 0x69399ea2f73c832f9de17a39cf246efc;
     mcp_server.utcnow :=
       {| mcp_server.year := 2025; mcp_server.month := 12;
          mcp_server.day := 10; mcp_server.hour := 9;
          mcp_server.minute := 5; mcp_server.second := 3;
          mcp_server.microsecond := 1200 |} |}.

Definition no_archive : world := {| fs := None; stdout := [] |}.

(** The lines [save_conversation] prints. *)
Definition save_log {platform : Platform} (env : mcp_server.draw)
  (title : string) (messages : list json) (tags : option (list string))
  : list string :=
  let bar := mcp_server.str_repeat 60 "=" in
  [nl +:+ bar; "CONVERSATION SAVED"; bar;
   "ID:       " +:+ mcp_server.uuid4 env;
   "Title:    " +:+ title;
   "Messages: " +:+ str_of_Z (Z.of_nat (length messages));
   "Tags:     " +:+ py_str (mcp_server.or_empty tags);
   "File:     " +:+ path_str (mcp_server.strftime_date (mcp_server.utcnow env))
                     (mcp_server.uuid4 env +:+ ".json");
   bar +:+ nl].

(** The entries of the directory [d], none when [d] is not a directory
    of the archive. *)
Definition files_of (w : world) (d : string) : gmap string tree :=
  entries_of (lookup_entry w d).

(** The archive once [payload] is written to [d/f]. *)
Definition saved_tree (w : world) (d f : string) (payload : json) : tree :=
  Dir (<[d := Dir (<[f := File (json_dump payload)]> (files_of w d))]>
         (entries_of (fs w))).

(** The exception the file system answers a save into [d/f] with, if
    any: [mkdir] raises when [ARCHIVE_DIR] or [ARCHIVE_DIR / d] is a
    regular file, and [open] when [ARCHIVE_DIR / d / f] is a directory. *)
Definition write_refused (w : world) (d f : string) : option exn :=
  if archive_is_file w then Some NotADirectoryError else
  match lookup_entry w d with
  | Some (File _) => Some FileExistsError
  | _ =>
      match lookup_path w d f with
      | Some (Dir _) => Some IsADirectoryError
      | _ => None
      end
  end.

(** No [*.json] entry of the archive has [id] in its name. *)
Definition unused_id (w : world) (id : string) : Prop :=
  ∀ d f e, lookup_path w d f = Some e → endswith f ".json" = true →
           str_contains id f = false.


(** The archive as the glossary has it: a tree of day directories, each
    entry of a day the file of one saved conversation, a JSON object named
    by its identifier and filed under the day of the time it was saved
    at. *)
Definition archive_inv (w : world) : Prop :=
  archive_is_file w = false
  ∧ (∀ d n, lookup_entry w d = Some n → ∃ files, n = Dir files)
  ∧ (∀ d f e, lookup_path w d f = Some e →
       ∃ o id saved_at,
         e = File (Document (JObj o))
         ∧ alist_get "id" o = Some (JStr id)
         ∧ f = id +:+ ".json"
         ∧ alist_get "saved_at" o = Some (JStr (mcp_server.isoformat saved_at))
         ∧ d = mcp_server.strftime_date saved_at).

(** The two pages of sample data, as they read once the constants are
    filled in. *)
Definition trending_page : web_ui.response :=
  web_ui.HTMLResponse
    (web_ui.base_html "Trending"
       (web_ui.trending_content
          [web_ui.trending_card "1" "Q4 Planning Strategy" "Product" "342" "28";
           web_ui.trending_card "2" "API Rate Limiting Discussion"
             "Engineering" "289" "45";
           web_ui.trending_card "3" "Customer Onboarding Flow" "Growth"
             "256" "19";
           web_ui.trending_card "4" "Brand Guidelines Update" "Design"
             "198" "32";
           web_ui.trending_card "5" "Incident Postmortem: Dec 5" "SRE"
             "187" "67"])
       "trending")
    200.

Definition roadmap_page : web_ui.response :=
  web_ui.HTMLResponse
    (web_ui.base_html "Roadmap"
       (web_ui.roadmap_content
          [web_ui.roadmap_item "Full-text Search"
             "Search across all conversations" "coming-soon" "Coming Soon";
           web_ui.roadmap_item "Team Workspaces"
             "Organize by team or project" "coming-soon" "Coming Soon";
           web_ui.roadmap_item "AI Auto-tagging"
             "Automatic categorization" "planned" "Planned";
           web_ui.roadmap_item "Slack Integration"
             "Share directly to channels" "planned" "Planned";
           web_ui.roadmap_item "Analytics Dashboard"
             "Usage insights and trends" "planned" "Planned";
           web_ui.roadmap_item "Export to Notion/Confluence"
             "Sync to your wiki" "exploring" "Exploring"])
       "roadmap")
    200.

(** ** Vocabulary of the claims about the fetch client *)

(** The requests a client in state [c] sends. *)
Definition session_request (c : ChatGPTClient.client) : ChatGPTClient.request :=
  {| ChatGPTClient.url := ChatGPTClient.BASE_URL +:+ "/api/auth/session";
     ChatGPTClient.params := [];
     ChatGPTClient.req_cookies := ChatGPTClient.cookies c;
     ChatGPTClient.req_headers := ChatGPTClient.headers c |}.

Definition conversation_request (c : ChatGPTClient.client)
  (conversation_id : string) : ChatGPTClient.request :=
  {| ChatGPTClient.url :=
       ChatGPTClient.BASE_URL +:+ "/backend-api/conversation/"
       +:+ conversation_id;
     ChatGPTClient.params := [];
     ChatGPTClient.req_cookies := ChatGPTClient.cookies c;
     ChatGPTClient.req_headers := ChatGPTClient.headers c |}.

Definition list_request (c : ChatGPTClient.client) (limit offset : Z)
  : ChatGPTClient.request :=
  {| ChatGPTClient.url :=
       ChatGPTClient.BASE_URL +:+ "/backend-api/conversations";
     ChatGPTClient.params := [("limit", JInt limit); ("offset", JInt offset)];
     ChatGPTClient.req_cookies := ChatGPTClient.cookies c;
     ChatGPTClient.req_headers := ChatGPTClient.headers c |}.

(** The session [s] once [req] has been sent. *)
Definition sent_more (s : ChatGPTClient.session) (req : ChatGPTClient.request)
  : ChatGPTClient.session :=
  {| ChatGPTClient.self := ChatGPTClient.self s;
     ChatGPTClient.sent := ChatGPTClient.sent s ++ [req] |}.

(** The client holds a token: [self.access_token] counts as true. *)
Definition holds_token (s : ChatGPTClient.session) : bool :=
  truthy (ChatGPTClient.access_token (ChatGPTClient.self s)).

(** What the client reads in a response: [None] unless the status is 200,
    else the body as JSON. *)
Definition body_or_none (resp : ChatGPTClient.response) : result json :=
  if ChatGPTClient.status_code resp =? 200
  then ChatGPTClient.response_json resp else Ok JNull.

(** The client after a token [token] came back with status 200. *)
Definition with_token {platform : Platform} (token : json)
  (s : ChatGPTClient.session) : ChatGPTClient.session :=
  if truthy token
  then ChatGPTClient.set_header "authorization" ("Bearer " +:+ py_str token)
         (ChatGPTClient.set_access_token token s)
  else ChatGPTClient.set_access_token token s.

(** Two services: one that answers every request with status 200 and a
    body that is not JSON, and one that hands out the token ["tok"] at the
    session endpoint and an empty object elsewhere. *)
Definition garbage_server (_ : list ChatGPTClient.request)
  (_ : ChatGPTClient.request) : ChatGPTClient.response :=
  {| ChatGPTClient.status_code := 200; ChatGPTClient.json_body := None |}.

Definition token_server (_ : list ChatGPTClient.request)
  (req : ChatGPTClient.request) : ChatGPTClient.response :=
  if String.eqb (ChatGPTClient.url req) "https://chatgpt.com/api/auth/session"
  then {| ChatGPTClient.status_code := 200;
          ChatGPTClient.json_body := Some (JObj [("accessToken", JStr "tok")]) |}
  else {| ChatGPTClient.status_code := 200;
          ChatGPTClient.json_body := Some (JObj []) |}.

(** A client just constructed, before any request. *)
Definition fresh_session (cookies : list (string * string))
  : ChatGPTClient.session :=
  {| ChatGPTClient.self := ChatGPTClient.init cookies;
     ChatGPTClient.sent := [] |}.

(** ** Vocabulary of the claims about [extract_messages] *)

(** A field of an object; [None] when it is absent or the value is not an
    object. *)
Definition jfield (v : json) (k : string) : option json :=
  match v with JObj kvs => alist_get k kvs | _ => None end.

Definition field_or (v : json) (k : string) (dflt : json) : json :=
  default dflt (jfield v k).

(** The nodes of the conversation mapping, in the order of the mapping. *)
Definition mapping_of (data : json) : list (string * json) :=
  match field_or data "mapping" (JObj []) with
  | JObj nodes => nodes
  | _ => []
  end.

Definition node_message (node : json) : json := field_or node "message" JNull.

(** The message is marked [is_visually_hidden_from_conversation] in its
    metadata. *)
Definition marked_hidden (msg : json) : bool :=
  truthy (field_or (field_or msg "metadata" (JObj []))
            "is_visually_hidden_from_conversation" JNull).

Definition content_type_of (msg : json) : json :=
  field_or (field_or msg "content" (JObj [])) "content_type" JNull.

(** The true parts of the message's content, joined by newlines. *)
Definition message_text {platform : Platform} (msg : json) : string :=
  match py_iter (field_or (field_or msg "content" (JObj [])) "parts" (JList []))
  with
  | Ok ps => str_join nl (py_str <$> filter (λ p, truthy p = true) ps)
  | Raise _ => ""
  end.

(** A node that is kept: it has a message, the message is not hidden, its
    content is text, and the text is more than white space. *)
Definition shown {platform : Platform} (node : json) : bool :=
  let msg := node_message node in
  truthy msg
  && negb (marked_hidden msg)
  && eq_str (content_type_of msg) "text"
  && str_nonempty (strip (message_text msg)).

(** The flat record made of a kept node. *)
Definition message_of {platform : Platform} (item : string * json) : json :=
  let msg := node_message item.2 in
  JObj [("id", JStr item.1);
        ("role", field_or (field_or msg "author" (JObj [])) "role"
                   (JStr "unknown"));
        ("content", JStr (message_text msg));
        ("create_time", field_or msg "create_time" JNull);
        ("parent", field_or item.2 "parent" JNull)].

Definition kept {platform : Platform} (item : string * json) : list json :=
  if shown item.2 then [message_of item] else [].

(** The creation time of a flat record, a missing or null one counting as
    0. *)
Definition creation_time (m : json) : pyfloat :=
  match jfield m "create_time" with
  | None | Some JNull => Finite 0
  | Some v => default (Finite 0) (num_of v)
  end.

(** A [create_time] as the service sends it: [null], or a number that is
    not NaN. *)
Definition timed (v : json) : bool :=
  match v with
  | JNull => true
  | _ => match num_of v with Some NaN | None => false | Some _ => true end
  end.

Definition obj_like (v : json) : bool :=
  match v with JObj _ => true | _ => false end.

Definition iterable (v : json) : bool :=
  match v with JList _ | JStr _ | JObj _ => true | _ => false end.

(** The shape of the service's conversation data, as far as
    [extract_messages] reads it: the mapping is an object of node objects;
    a node's message is absent, null, or an object whose [author],
    [metadata] and [content] are objects when present, whose content
    [parts] can be iterated, and whose [create_time] is null or a number
    other than NaN. *)
Definition message_schema (msg : json) : bool :=
  negb (truthy msg)
  || (obj_like msg
      && obj_like (field_or msg "author" (JObj []))
      && obj_like (field_or msg "metadata" (JObj []))
      && obj_like (field_or msg "content" (JObj []))
      && iterable (field_or (field_or msg "content" (JObj [])) "parts"
                     (JList []))
      && timed (field_or msg "create_time" JNull)).

Definition node_schema (node : json) : bool :=
  obj_like node && message_schema (node_message node).

Definition conversation_schema (data : json) : bool :=
  obj_like data
  && match field_or data "mapping" (JObj []) with
     | JObj nodes => forallb (λ kv, node_schema kv.2) nodes
     | _ => false
     end.

(** A text message of the conversation mapping. *)
Definition text_node (parent text : string) (create_time : json) : json :=
  JObj [("message",
         JObj [("author", JObj [("role", JStr "user")]);
               ("content", JObj [("content_type", JStr "text");
                                 ("parts", JList [JStr text])]);
               ("create_time", create_time)]);
        ("parent", JStr parent)].

(** ** Vocabulary of sorting *)

(** No element comes after one with a larger key. *)
Definition not_after {A} (x y : json * A) : Prop := lt_bool y.1 x.1 = false.

(** The keys of the elements are among [ks]. *)
Definition keys_among {A} (ks : list json) (l : list (json * A)) : Prop :=
  Forall (λ x, x.1 ∈ ks) l.

(** A key that is a number other than NaN. *)
Definition number_key (k : json) : Prop :=
  ∃ x, num_of k = Some x ∧ x ≠ NaN.

(** The key of a keyed entry is the number [num] gives for the entry. *)
Definition keyed_num {A} (num : A → pyfloat) (p : json * A) : Prop :=
  ∃ x, num_of p.1 = Some x ∧ x ≠ NaN ∧ float_eq x (num p.2) = true.

(** ** Vocabulary of identifiers *)

(** A lower-case hexadecimal digit or a dash. *)
Definition hex_or_dash (c : ascii) : bool :=
  existsb (Ascii.eqb c) (list_ascii_of_string "0123456789abcdef-").

(** Every character of the string satisfies [P]. *)
Fixpoint str_forall (P : ascii → bool) (s : string) : bool :=
  match s with
  | "" => true
  | String c t => P c && str_forall P t
  end.


(** ** Vocabulary of the further properties *)






(** The directory listing in the opposite order. *)
Definition reverse_order : Listing :=
  {| listdir := λ A m, reverse (map_to_list m);
     listdir_perm := λ A m, reverse_Permutation (map_to_list m) |}.

(** * The embedding at work *)

Example str_of_Z_neg : str_of_Z (-42) = "-42".
Proof. reflexivity. Qed.
Example zero_pad_ex : zero_pad 2 7 = "07".
Proof. reflexivity. Qed.
Example strip_ex : strip ("  a b" +:+ nl) = "a b".
Proof. reflexivity. Qed.
Example title_ex : str_title (str_replace "-" " " "coming-soon") = "Coming Soon".
Proof. reflexivity. Qed.
Example contains_ex : str_contains "9e" "a9e1.json" = true ∧ str_contains "x" "a9e1.json" = false.
Proof. split; reflexivity. Qed.
Example endswith_ex : endswith "a.json" ".json" = true ∧ endswith "json" ".json" = false.
Proof. split; reflexivity. Qed.
Example uuid4_ex :
  mcp_server.uuid4 demo_draw = "69399ea2-f73c-432f-9de1-7a39cf246efc".
Proof. reflexivity. Qed.
Example strftime_ex :
  mcp_server.strftime_date (mcp_server.utcnow demo_draw) = "2025-12-10"
  ∧ mcp_server.isoformat (mcp_server.utcnow demo_draw)
    = "2025-12-10T09:05:03.001200".
Proof. split; reflexivity. Qed.
(** * Facts about computations *)

Section MonadFacts.
Context {S : Type}.

Lemma readonly_ret {A} (a : A) : readonly (mret a : M S A).
Proof. by intros s. Qed.

Lemma readonly_lift {A} (r : result A) : readonly (lift r : M S A).
Proof. by intros s. Qed.

Lemma readonly_gets {A} (f : S → A) : readonly (gets f).
Proof. by intros s. Qed.

Lemma readonly_bind {A B} (c : M S A) (f : A → M S B) :
  readonly c → (∀ a, readonly (f a)) → readonly (c ≫= f).
Proof.
  intros Hc Hf s. unfold mbind, M_bind. specialize (Hc s).
  destruct (c s) as [[a|e] s']; simpl in *; subst; [apply Hf | done].
Qed.

Lemma readonly_try {A} (c h : M S A) :
  readonly c → readonly h → readonly (try_except c h).
Proof.
  intros Hc Hh s. unfold try_except. specialize (Hc s).
  destruct (c s) as [[a|e] s']; simpl in *; subst; [done | apply Hh].
Qed.

Lemma readonly_when (b : bool) (c : M S unit) :
  readonly c → readonly (when b c).
Proof. destruct b; [done | intros _; apply readonly_ret]. Qed.

Lemma readonly_foldlM {A B} (body : B → A → M S B) acc xs :
  (∀ acc x, readonly (body acc x)) → readonly (foldlM body acc xs).
Proof.
  intros Hb. revert acc. induction xs as [|x xs IH]; intros acc; simpl.
  - apply readonly_ret.
  - apply readonly_bind; [apply Hb | apply IH].
Qed.

Lemma readonly_for_return {A B} (xs : list A) (body : A → M S (option B)) :
  (∀ x, readonly (body x)) → readonly (for_return xs body).
Proof.
  intros Hb. induction xs as [|x xs IH]; simpl.
  - apply readonly_ret.
  - apply readonly_bind; [apply Hb |].
    intros [v|]; [apply readonly_ret | apply IH].
Qed.

(** A loop whose passes only append to the accumulator. *)
Lemma foldlM_append {A B} (body : list B → A → M S (list B))
    (g : A → list B) (s : S) (xs : list A) (acc : list B) :
  (∀ acc x, x ∈ xs → body acc x s = (Ok (acc ++ g x), s)) →
  foldlM body acc xs s = (Ok (acc ++ xs ≫= g), s).
Proof.
  revert acc. induction xs as [|x xs IH]; intros acc Hb; simpl.
  - by rewrite app_nil_r.
  - unfold mbind at 1, M_bind. rewrite Hb by left.
    rewrite IH; [by rewrite <- app_assoc |].
    intros acc' y Hy. apply Hb. by right.
Qed.

(** A returning loop over passes that read only. *)
Lemma for_return_first {A B} (body : A → M S (option B))
    (g : A → result (option B)) (s : S) (xs : list A) :
  (∀ x, x ∈ xs → body x s = (g x, s)) →
  for_return xs body s = (first_stop (g <$> xs), s).
Proof.
  induction xs as [|x xs IH]; intros Hb; simpl; [done |].
  unfold mbind at 1, M_bind. rewrite Hb by left.
  destruct (g x) as [[v|]|e]; try done.
  apply IH. intros y Hy. apply Hb. by right.
Qed.
End MonadFacts.

Lemma first_stop_app {B} (l1 l2 : list (result (option B))) :
  first_stop (l1 ++ l2)
  = match first_stop l1 with Ok None => first_stop l2 | r => r end.
Proof.
  induction l1 as [|[[v|]|e] l1 IH]; simpl; done.
Qed.

Lemma bind_run {S A B} (c : M S A) (f : A → M S B) (s : S) :
  (c ≫= f) s
  = match c s with (Ok a, s') => f a s' | (Raise e, s') => (Raise e, s') end.
Proof. reflexivity. Qed.

Lemma result_bind_ok {A B} (c : result A) (f : A → result B) (b : B) :
  c ≫= f = Ok b → ∃ a, c = Ok a ∧ f a = Ok b.
Proof. destruct c as [a|e]; [by exists a | done]. Qed.

(** Invert every successful [bind] among the hypotheses. *)
Ltac bind_inv :=
  repeat match goal with
  | H : _ ≫= _ = Ok _ |- _ =>
      apply result_bind_ok in H as (? & ? & H)
  | H : (if ?b then _ else _) = Ok _ |- _ => destruct b eqn:?
  | H : Ok _ = Ok _ |- _ => injection H as H
  | H : Raise _ = Ok _ |- _ => discriminate H
  end.

(** * web_ui.py: what the readers return *)

Lemma sorted_reverse_elem (names : list string) (x : string) :
  x ∈ sorted_reverse names ↔ x ∈ names.
Proof. unfold sorted_reverse. by rewrite merge_sort_Permutation. Qed.

Lemma sorted_reverse_inv (names : list string) (x : string) :
  x ∈ sorted_reverse names → x ∈ names.
Proof. apply sorted_reverse_elem. Qed.

Lemma sorted_reverse_intro (names : list string) (x : string) :
  x ∈ names → x ∈ sorted_reverse names.
Proof. apply sorted_reverse_elem. Qed.

Lemma lookup_file_path w d f t :
  lookup_file w d f = Some t ↔ lookup_path w d f = Some (File t).
Proof.
  unfold lookup_file. destruct (lookup_path w d f) as [[t'|files]|]; naive_solver.
Qed.

Lemma lookup_path_entry w d f e :
  lookup_path w d f = Some e →
  ∃ files, lookup_entry w d = Some (Dir files) ∧ files !! f = Some e.
Proof.
  unfold lookup_path. destruct (lookup_entry w d) as [[t|files]|]; simpl;
    try by rewrite lookup_empty.
  intros He. by exists files.
Qed.

Lemma lookup_entry_root w d n :
  lookup_entry w d = Some n →
  ∃ root, fs w = Some (Dir root) ∧ root !! d = Some n.
Proof.
  unfold lookup_entry. destruct (fs w) as [[t|root]|]; simpl;
    try by rewrite lookup_empty.
  intros Hn. by exists root.
Qed.

Section WebUiRun.
Context {platform : Platform} {listing : Listing}.

Lemma is_dir_run w d :
  is_dir d w = (Ok (match lookup_entry w d with
                    | Some (Dir _) => true | _ => false end), w).
Proof. reflexivity. Qed.

Lemma glob_json_run w d : glob_json d w = (Ok (json_names w d), w).
Proof. reflexivity. Qed.

Lemma listdir_names {A} (m : gmap string A) (k : string) :
  k ∈ (listdir m).*1 ↔ is_Some (m !! k).
Proof.
  rewrite listdir_perm, list_elem_of_fmap. split.
  - intros ([k' a] & -> & Ha%elem_of_map_to_list). by exists a.
  - intros [a Ha]. exists (k, a). split; [done|]. by apply elem_of_map_to_list.
Qed.

(** The names the glob yields are those of the [*.json] entries. *)
Lemma json_names_elem w d f :
  f ∈ json_names w d ↔
  is_Some (lookup_path w d f) ∧ endswith f ".json" = true.
Proof.
  unfold json_names, lookup_path.
  rewrite list_elem_of_filter, listdir_names. split; intros [? ?]; by split.
Qed.

Lemma entry_names_elem w d : d ∈ entry_names w ↔ is_Some (lookup_entry w d).
Proof. unfold entry_names, lookup_entry. apply listdir_names. Qed.

Lemma path_entry_names w d f e :
  lookup_path w d f = Some e → d ∈ entry_names w.
Proof.
  intros (files & Hd & _)%lookup_path_entry. apply entry_names_elem. by eexists.
Qed.

Lemma json_names_not_dir w d :
  (∀ files, lookup_entry w d ≠ Some (Dir files)) → json_names w d = [].
Proof.
  intros Hd. unfold json_names.
  destruct (lookup_entry w d) as [[t|files]|]; simpl.
  - apply Permutation_nil. by rewrite listdir_perm, map_to_list_empty.
  - by destruct (Hd files).
  - apply Permutation_nil. by rewrite listdir_perm, map_to_list_empty.
Qed.

Lemma open_read_run w d f :
  is_Some (lookup_path w d f) →
  open_read d f w
  = (match lookup_path w d f with
     | Some (File t) => Ok t
     | _ => Raise IsADirectoryError
     end, w).
Proof.
  intros [e He]. rewrite He.
  apply lookup_path_entry in He as (files & Hd & He).
  apply lookup_entry_root in Hd as (root & Hfs & Hd).
  unfold open_read. rewrite Hfs, Hd, He. by destruct e.
Qed.

Lemma load_pass_run w convs d f :
  f ∈ json_names w d →
  try_except (web_ui.load_into convs d f) (mret convs) w
  = (Ok (convs ++ loaded w d f), w).
Proof.
  intros [Hf _]%json_names_elem.
  unfold try_except, web_ui.load_into, loaded, lookup_file.
  rewrite bind_run, open_read_run by done.
  destruct (lookup_path w d f) as [[[s|[| | | | | |o]|]|files]|];
    simpl; by rewrite ?app_nil_r.
Qed.

(** [get_all_conversations] raises when the archive path is a regular
    file, and otherwise returns what the loading loop collects. *)
Lemma get_all_conversations_run w :
  web_ui.get_all_conversations w
  = (if archive_is_file w then Raise NotADirectoryError
     else Ok (all_loaded w), w).
Proof.
  unfold web_ui.get_all_conversations, all_loaded, entry_names,
    archive_is_file.
  rewrite bind_run. unfold archive_exists, gets.
  destruct (fs w) as [[t|root]|] eqn:Hroot; cbn [entries_of].
  - rewrite bind_run. unfold iterdir. by rewrite Hroot.
  - rewrite bind_run. unfold iterdir. rewrite Hroot.
    rewrite (foldlM_append _
               (λ d, sorted_reverse (json_names w d) ≫= loaded w d)); [done|].
    intros acc d _. rewrite bind_run, is_dir_run.
    destruct (lookup_entry w d) as [[t|files]|] eqn:Hd.
    + rewrite json_names_not_dir by (by rewrite Hd). simpl.
      by rewrite app_nil_r.
    + rewrite bind_run, glob_json_run.
      apply foldlM_append. intros acc' f Hf.
      apply sorted_reverse_inv in Hf. by apply load_pass_run.
    + rewrite json_names_not_dir by (by rewrite Hd). simpl.
      by rewrite app_nil_r.
  - assert (listdir (∅ : gmap string tree) = []) as ->; [|done].
    apply Permutation_nil. by rewrite listdir_perm, map_to_list_empty.
Qed.

(** The conversations loaded are exactly the JSON objects held by the
    [*.json] files of the archive's directories, each with its path
    under ["_file"]. *)
Lemma all_loaded_elem w conv :
  conv ∈ all_loaded w ↔
  ∃ d f o, lookup_file w d f = Some (Document (JObj o))
           ∧ endswith f ".json" = true
           ∧ conv = JObj (alist_set "_file" (JStr (path_str d f)) o).
Proof.
  unfold all_loaded. rewrite list_elem_of_bind. split.
  - intros (d & Hc & Hd). apply list_elem_of_bind in Hc as (f & Hc & Hf).
    apply sorted_reverse_inv, json_names_elem in Hf as [_ Hj].
    unfold loaded in Hc.
    destruct (lookup_file w d f) as [[s|[| | | | | |o]|]|] eqn:Ht;
      try by apply elem_of_nil in Hc.
    apply list_elem_of_singleton in Hc. by exists d, f, o.
  - intros (d & f & o & Ht & Hj & ->). apply lookup_file_path in Ht as Hp.
    exists d. split.
    + apply list_elem_of_bind. exists f. split.
      * unfold loaded. rewrite Ht. by left.
      * apply sorted_reverse_intro, json_names_elem. split; [by eexists | done].
    + eapply sorted_reverse_intro, path_entry_names; eauto.
Qed.

Lemma first_stop_bind {A B} (xs : list A) (h : A → list (result (option B))) :
  first_stop (xs ≫= h) = first_stop ((λ x, first_stop (h x)) <$> xs).
Proof.
  induction xs as [|x xs IH]; [done|].
  change ((x :: xs) ≫= h) with (h x ++ xs ≫= h).
  rewrite first_stop_app, IH, fmap_cons. simpl.
  by destruct (first_stop (h x)) as [[?|]|?].
Qed.

Lemma probe_pass_run w conv_id d f :
  f ∈ json_names w d →
  (if str_contains conv_id f then
     t ← open_read d f; conv ← lift (json_load t); mret (Some conv)
   else mret None) w
  = (probe w conv_id d f, w).
Proof.
  intros [Hf _]%json_names_elem. unfold probe.
  destruct (str_contains conv_id f); [|done].
  rewrite bind_run, open_read_run by done.
  destruct (lookup_path w d f) as [[[s|v|]|files]|]; done.
Qed.

(** [get_conversation] raises when the archive path is a regular file, and
    otherwise stops at the first entry, in the order of the listing, whose
    name has [conv_id] in it. *)
Lemma get_conversation_run w conv_id :
  web_ui.get_conversation conv_id w
  = (if archive_is_file w then Raise NotADirectoryError
     else default JNull <$> first_stop (probes w conv_id), w).
Proof.
  unfold web_ui.get_conversation, probes, entry_names, archive_is_file.
  rewrite bind_run. unfold archive_exists, gets.
  destruct (fs w) as [[t|root]|] eqn:Hroot; cbn [entries_of].
  - rewrite bind_run, bind_run. unfold iterdir. by rewrite Hroot.
  - rewrite bind_run, bind_run. unfold iterdir. rewrite Hroot.
    rewrite (for_return_first _
      (λ d, first_stop (probe w conv_id d <$> json_names w d))).
    + rewrite first_stop_bind.
      by destruct (first_stop _) as [found|e].
    + intros d _. rewrite bind_run, is_dir_run.
      destruct (lookup_entry w d) as [[t|files]|] eqn:Hd.
      * by rewrite json_names_not_dir by (by rewrite Hd).
      * rewrite bind_run, glob_json_run.
        apply for_return_first. intros f Hf. by apply probe_pass_run.
      * by rewrite json_names_not_dir by (by rewrite Hd).
  - assert (listdir (∅ : gmap string tree) = []) as ->; [|done].
    apply Permutation_nil. by rewrite listdir_perm, map_to_list_empty.
Qed.
End WebUiRun.
(** * Looking a conversation up (web_ui.get_conversation) *)

Lemma first_stop_none {B} (l : list (result (option B))) :
  (∀ r, r ∈ l → r = Ok None) → first_stop l = Ok None.
Proof.
  induction l as [|r l IH]; intros Hl; [done|].
  rewrite (Hl r) by left. simpl. apply IH. intros r' Hr'. apply Hl. by right.
Qed.

Lemma first_stop_elem {B} (l : list (result (option B))) :
  first_stop l = Ok None ∨ first_stop l ∈ l.
Proof.
  induction l as [|[[v|]|e] l IH]; simpl.
  - by left.
  - right. left.
  - destruct IH as [IH|IH]; [by left | right; by right].
  - right. left.
Qed.

Lemma first_stop_some {B} (l : list (result (option B))) r :
  r ∈ l → r ≠ Ok None → first_stop l ≠ Ok None.
Proof.
  induction l as [|[[v|]|e] l IH]; simpl; intros Hr Hne; try done.
  - by apply elem_of_nil in Hr.
  - apply elem_of_cons in Hr as [->|Hr]; [done | by apply IH].
Qed.

Lemma prefix_app_r (p s t : string) :
  String.prefix p s = true → String.prefix p (s +:+ t) = true.
Proof.
  revert s. induction p as [|c p IH]; intros [|c' s]; simpl; try done.
  - by destruct t.
  - destruct (ascii_dec c c'); [apply IH | done].
Qed.

Lemma str_contains_app_r (sub s t : string) :
  str_contains sub s = true → str_contains sub (s +:+ t) = true.
Proof.
  induction s as [|c s IH]; simpl.
  - rewrite orb_false_r. destruct sub; [|done]. intros _. by destruct t.
  - intros [Hp|Hc]%orb_true_iff; apply orb_true_iff.
    + left. by apply (prefix_app_r sub (String c s) t).
    + right. by apply IH.
Qed.

Lemma prefix_refl (s : string) : String.prefix s s = true.
Proof. induction s as [|c s IH]; [done|]. simpl. by destruct (ascii_dec c c). Qed.

Lemma str_contains_self_app (s t : string) : str_contains s (s +:+ t) = true.
Proof.
  apply str_contains_app_r. destruct s as [|c s]; [done|].
  cbn [str_contains]. by rewrite prefix_refl.
Qed.

Lemma str_contains_empty (s : string) : str_contains "" s = true.
Proof. by destruct s. Qed.

Lemma str_drop_app (s t : string) : str_drop (String.length s) (s +:+ t) = t.
Proof. induction s as [|c s IH]; simpl; [by destruct t | done]. Qed.

Lemma length_append (s t : string) :
  String.length (s +:+ t) = (String.length s + String.length t)%nat.
Proof. induction s as [|c s IH]; simpl; [done | by rewrite IH]. Qed.

Lemma endswith_app (s t : string) : endswith (s +:+ t) t = true.
Proof.
  unfold endswith. rewrite length_append. apply andb_true_iff. split.
  - apply Nat.leb_le. lia.
  - replace (String.length s + String.length t - String.length t)%nat
      with (String.length s) by lia.
    rewrite str_drop_app. apply String.eqb_refl.
Qed.

Section Lookup.
Context {platform : Platform} {listing : Listing}.

Lemma probes_elem w conv_id r :
  r ∈ probes w conv_id ↔
  ∃ d f, d ∈ entry_names w ∧ f ∈ json_names w d ∧ r = probe w conv_id d f.
Proof.
  unfold probes. rewrite list_elem_of_bind. split.
  - intros (d & (f & -> & Hf)%list_elem_of_fmap & Hd). by exists d, f.
  - intros (d & f & Hd & Hf & ->). exists d. split; [|done].
    apply list_elem_of_fmap. by exists f.
Qed.

Lemma name_matches_archive w conv_id :
  name_matches w conv_id → archive_is_file w = false.
Proof.
  intros (d & f & e & (files & Hd & _)%lookup_path_entry & _).
  apply lookup_entry_root in Hd as (root & Hfs & _).
  unfold archive_is_file. by rewrite Hfs.
Qed.

Lemma get_conversation_no_match w conv_id :
  archive_is_file w = false → ¬ name_matches w conv_id →
  web_ui.get_conversation conv_id w = (Ok JNull, w).
Proof.
  intros Hdir Hno. rewrite get_conversation_run, Hdir, first_stop_none; [done|].
  intros r (d & f & Hd & Hf & ->)%probes_elem.
  unfold probe. destruct (str_contains conv_id f) eqn:Hc; [|done].
  destruct Hno. apply json_names_elem in Hf as [[e He] Hj]. by exists d, f, e.
Qed.

Lemma get_conversation_match w conv_id :
  name_matches w conv_id →
  ∃ d f e, lookup_path w d f = Some e
           ∧ endswith f ".json" = true
           ∧ str_contains conv_id f = true
           ∧ web_ui.get_conversation conv_id w = (read_json (Some e), w).
Proof.
  intros Hm. pose proof (name_matches_archive w conv_id Hm) as Hdir.
  destruct Hm as (d & f & e & He & Hj & Hc).
  rewrite get_conversation_run, Hdir.
  assert (first_stop (probes w conv_id) ≠ Ok None) as Hne.
  { apply (first_stop_some _ (probe w conv_id d f)).
    - apply probes_elem. exists d, f. split; [by eapply path_entry_names|].
      split; [|done]. apply json_names_elem. split; [by eexists | done].
    - unfold probe. rewrite Hc, He. by destruct e as [[s|v|]|files]. }
  destruct (first_stop_elem (probes w conv_id)) as [?|Hin]; [done|].
  apply probes_elem in Hin as (d' & f' & Hd' & Hf' & Heq).
  rewrite Heq in Hne |- *. unfold probe in Hne |- *.
  destruct (str_contains conv_id f') eqn:Hc'; [|done].
  apply json_names_elem in Hf' as [[e' He'] Hj'].
  exists d', f', e'. rewrite He'. repeat split; try done.
  by destruct (read_json (Some e')).
Qed.

Lemma render_detail_status conv body code :
  web_ui.render_detail conv = Ok (web_ui.HTMLResponse body code) → code = 200.
Proof.
  unfold web_ui.render_detail. intros Hr. bind_inv; congruence.
Qed.

Lemma conversation_detail_run w conv_id :
  web_ui.conversation_detail conv_id w
  = match web_ui.get_conversation conv_id w with
    | (Ok conv, w') =>
        if truthy conv then (web_ui.render_detail conv, w')
        else (Ok not_found_page, w')
    | (Raise e, w') => (Raise e, w')
    end.
Proof.
  unfold web_ui.conversation_detail. rewrite bind_run.
  destruct (web_ui.get_conversation conv_id w) as [[conv|e] w']; [|done].
  by destruct (truthy conv).
Qed.

(** What the detail route answers when the lookup opens the entry [e]. *)
Lemma conversation_detail_match w conv_id e :
  web_ui.get_conversation conv_id w = (read_json (Some e), w) →
  web_ui.conversation_detail conv_id w
  = (conv ← read_json (Some e);
     if truthy conv then web_ui.render_detail conv else Ok not_found_page, w).
Proof.
  intros Hg. rewrite conversation_detail_run, Hg.
  destruct (read_json (Some e)) as [conv|err]; [|done].
  cbn [mbind result_bind]. by destruct (truthy conv).
Qed.
End Lookup.

Lemma one_file_path d f t d' f' e :
  lookup_path (one_file d f t) d' f' = Some e → d' = d ∧ f' = f ∧ e = File t.
Proof.
  intros (files & Hd & He)%lookup_path_entry.
  unfold lookup_entry, one_file, world_of in Hd. simpl in Hd.
  apply lookup_singleton_Some in Hd as [-> [= <-]].
  by apply lookup_singleton_Some in He as [-> <-].
Qed.

Lemma one_file_path_eq d f t :
  lookup_path (one_file d f t) d f = Some (File t).
Proof.
  unfold lookup_path, lookup_entry, one_file, world_of. simpl.
  rewrite lookup_singleton_eq. simpl. apply lookup_singleton_eq.
Qed.

(** C10, as amended.  [web_ui.get_conversation conv_id] selects by
    substring.  When no [*.json] entry name of the archive contains
    [conv_id], it returns [None] and the detail route answers 404 (or,
    the archive path being a regular file, it raises
    [NotADirectoryError]).  When some name does, it opens an entry whose
    name contains [conv_id] and hands on what reading it as JSON gives:
    the value held, or the exception raised by a directory or by a file
    that does not hold JSON; the detail route answers 404 when that value
    counts as false and renders it otherwise.  So, where every entry with
    [conv_id] in its name is a regular file holding a JSON value other
    than null, [None] comes back exactly when no name contains [conv_id];
    and where those values all count as true, 404 comes back exactly then.
    Every substring of a stored identifier (the empty string too) is
    contained in that identifier's file name. *)
Theorem get_conversation_by_substring {platform : Platform} {listing : Listing}
    (w : world) (conv_id : string) :
  (¬ name_matches w conv_id →
     if archive_is_file w
     then web_ui.get_conversation conv_id w = (Raise NotADirectoryError, w)
     else web_ui.get_conversation conv_id w = (Ok JNull, w)
          ∧ web_ui.conversation_detail conv_id w = (Ok not_found_page, w))
  ∧ (name_matches w conv_id →
     ∃ d f e, lookup_path w d f = Some e
              ∧ endswith f ".json" = true
              ∧ str_contains conv_id f = true
              ∧ web_ui.get_conversation conv_id w = (read_json (Some e), w)
              ∧ web_ui.conversation_detail conv_id w
                = (conv ← read_json (Some e);
                   if truthy conv then web_ui.render_detail conv
                   else Ok not_found_page, w))
  ∧ (archive_is_file w = false → matches_hold not_null w conv_id →
     (web_ui.get_conversation conv_id w = (Ok JNull, w)
      ↔ ¬ name_matches w conv_id))
  ∧ (archive_is_file w = false → matches_hold truthy w conv_id →
     ((∃ body, web_ui.conversation_detail conv_id w
               = (Ok (web_ui.HTMLResponse body 404), w))
      ↔ ¬ name_matches w conv_id))
  ∧ (∀ d id e, lookup_path w d (id +:+ ".json") = Some e →
       str_contains conv_id id = true ∨ conv_id = "" →
       name_matches w conv_id).
Proof.
  assert (archive_is_file w = false → ¬ name_matches w conv_id →
     web_ui.get_conversation conv_id w = (Ok JNull, w)
     ∧ web_ui.conversation_detail conv_id w = (Ok not_found_page, w)) as Hnone.
  { intros Hdir Hno.
    pose proof (get_conversation_no_match w conv_id Hdir Hno) as Hg.
    split; [done|]. by rewrite conversation_detail_run, Hg. }
  split; [|split; [|split; [|split]]].
  - intros Hno. destruct (archive_is_file w) eqn:Hdir; [|by apply Hnone].
    by rewrite get_conversation_run, Hdir.
  - intros (d & f & e & He & Hj & Hc & Hg)%get_conversation_match.
    exists d, f, e. do 4 (split; [done|]). by apply conversation_detail_match.
  - intros Hdir Hv. split; [|by intros [? ?]%Hnone].
    intros Hg (d & f & e & He & Hj & Hc & Hg')%get_conversation_match.
    destruct (Hv d f e He Hj Hc) as (v & -> & Hv'). rewrite Hg in Hg'.
    simpl in Hg'. injection Hg' as <-. done.
  - intros Hdir Hv. split.
    + intros (body & Hd) (d & f & e & He & Hj & Hc & Hg)%get_conversation_match.
      destruct (Hv d f e He Hj Hc) as (v & -> & Hv').
      rewrite conversation_detail_run, Hg in Hd. simpl in Hd.
      rewrite Hv' in Hd. injection Hd as Hd.
      by apply render_detail_status in Hd.
    + intros [_ Hd]%Hnone; [|done]. by eexists.
  - intros d id e He Hc. exists d, (id +:+ ".json"), e.
    split; [done|]. split; [apply endswith_app|].
    destruct Hc as [Hc| ->]; [by apply str_contains_app_r|].
    apply str_contains_empty.
Qed.

(** At an archive holding the one conversation [69399ea2], the lookup of
    ["9e"] selects it, and the lookup of ["zz"] finds nothing. *)
Lemma get_conversation_by_substring_witness :
  let conv := JObj [("id", JStr "69399ea2"); ("title", JStr "T")] in
  let w := one_file "2025-12-10" "69399ea2.json" (Document conv) in
  web_ui.get_conversation (listing := map_order) "9e" w = (Ok conv, w)
  ∧ (web_ui.get_conversation (listing := map_order) "9e" w = (Ok JNull, w)
     ↔ ¬ name_matches w "9e")
  ∧ web_ui.get_conversation (listing := map_order) "zz" w = (Ok JNull, w).
Proof.
  intros conv w.
  destruct (get_conversation_by_substring
              (platform := demo_platform) (listing := map_order) w "9e")
    as (_ & Hsome & Hiff & _ & Hsub).
  destruct (get_conversation_by_substring
              (platform := demo_platform) (listing := map_order) w "zz")
    as (Hnone & _).
  split; [|split].
  - destruct Hsome as (d & f & e & (-> & -> & ->)%one_file_path & _ & _ & Hg & _);
      [|exact Hg].
    apply (Hsub "2025-12-10" "69399ea2" (File (Document conv))); [|by left].
    apply one_file_path_eq.
  - apply Hiff; [done|].
    intros d f e (-> & -> & ->)%one_file_path _ _. by eexists.
  - apply Hnone.
    by intros (d & f & e & (-> & -> & ->)%one_file_path & _ & ?).
Defined.

(** C10, as stated, fails.  A file that holds [null] makes the lookup
    return [None], and one that holds [0] makes the detail route answer
    404, although the name of the file contains the identifier. *)
Lemma get_conversation_null_file :
  let w := one_file "2025-12-10" "a.json" (Document JNull) in
  let w0 := one_file "2025-12-10" "a.json" (Document (JInt 0)) in
  name_matches w "a"
  ∧ web_ui.get_conversation (listing := map_order) "a" w = (Ok JNull, w)
  ∧ name_matches w0 "a"
  ∧ web_ui.get_conversation (listing := map_order) "a" w0 = (Ok (JInt 0), w0)
  ∧ web_ui.conversation_detail (platform := demo_platform)
      (listing := map_order) "a" w0 = (Ok not_found_page, w0).
Proof.
  intros w w0.
  assert (∀ t, name_matches (one_file "2025-12-10" "a.json" t) "a") as Hm.
  { intros t. exists "2025-12-10", "a.json", (File t).
    split; [apply one_file_path_eq | done]. }
  split; [apply Hm|]. split; [by vm_compute|]. split; [apply Hm|].
  split; by vm_compute.
Qed.

(** * Listing the archive (web_ui.get_all_conversations, home) *)

Lemma foldlR_snoc {A B} (f : A → result B) (xs : list A) (acc : list B) :
  foldlR (λ ys x, y ← f x; Ok (ys ++ [y])) acc xs
  = ys ← mapR f xs; Ok (acc ++ ys).
Proof.
  revert acc. induction xs as [|x xs IH]; intros acc; simpl.
  - by rewrite app_nil_r.
  - destruct (f x) as [y|e]; simpl; [|done]. rewrite IH.
    destruct (mapR f xs) as [ys|e]; simpl; [|done]. by rewrite <- app_assoc.
Qed.

Lemma mapR_Forall2 {A B} (f : A → result B) (xs : list A) (ys : list B) :
  mapR f xs = Ok ys ↔ Forall2 (λ x y, f x = Ok y) xs ys.
Proof.
  revert ys. induction xs as [|x xs IH]; intros ys; simpl.
  - split; [by intros [= <-] | by intros ->%Forall2_nil_inv_l].
  - split.
    + intros Hm. bind_inv. subst. constructor; [done | by apply IH].
    + intros (y & ys' & Hy & Hys & ->)%Forall2_cons_inv_l.
      rewrite Hy. simpl. apply IH in Hys. by rewrite Hys.
Qed.

Lemma mapR_ok {A B} (f : A → result B) (xs : list A) :
  Forall (λ x, is_ok (f x) = true) xs → is_ok (mapR f xs) = true.
Proof.
  induction 1 as [|x xs Hx _ IH]; simpl; [done|].
  destruct (f x); [|done]. simpl. by destruct (mapR f xs).
Qed.

Section Home.
Context {platform : Platform} {listing : Listing}.

Lemma render_card_ready conv :
  card_ready conv → is_ok (web_ui.render_card conv) = true.
Proof.
  intros (o & id & -> & Hid & Htags & Hsaved & Hsummary).
  unfold web_ui.render_card, dict_get, getitem. rewrite Hid. simpl.
  destruct (default (JList []) (alist_get "tags" o)); try done;
  destruct (default (JStr "") (alist_get "saved_at" o)); try done;
  destruct (default (JStr "") (alist_get "summary" o)); done.
Qed.

Lemma home_run w :
  web_ui.home w
  = (if archive_is_file w then Raise NotADirectoryError
     else home_page (all_loaded w), w).
Proof.
  unfold web_ui.home. rewrite bind_run, get_all_conversations_run.
  destruct (archive_is_file w); [done|].
  unfold home_page. destruct (all_loaded w) as [|conv convs]; [done|].
  cbn [truthy negb]. rewrite bind_run. unfold lift.
  rewrite foldlR_snoc.
  by destruct (mapR web_ui.render_card (conv :: convs)).
Qed.

(** C4, as amended.  [get_all_conversations] returns, and changes
    nothing; what it returns holds exactly the JSON objects read from the
    [*.json] files of the archive's directories, each with the file's path
    added under ["_file"] (an entry that does not hold a JSON object is
    skipped); [/api/conversations] answers with that list; and the list
    page, when it can be rendered, has one card per returned
    conversation, which it can whenever the conversations are
    [card_ready].  The one case in which it does not return is an archive
    path taken by a regular file, which has nothing to load: then listing
    it raises. *)
Theorem get_all_conversations_loads (w : world) :
  if archive_is_file w
  then web_ui.get_all_conversations w = (Raise NotADirectoryError, w)
  else
  ∃ convs,
    web_ui.get_all_conversations w = (Ok convs, w)
    ∧ (∀ conv, conv ∈ convs ↔
         ∃ d f o, lookup_file w d f = Some (Document (JObj o))
                  ∧ endswith f ".json" = true
                  ∧ conv = JObj (alist_set "_file" (JStr (path_str d f)) o))
    ∧ web_ui.api_conversations w = (Ok (web_ui.JSONResponse (JList convs)), w)
    ∧ web_ui.home w = (home_page convs, w)
    ∧ (∀ cards,
         mapR web_ui.render_card convs = Ok cards →
         Forall2 (λ conv card, web_ui.render_card conv = Ok card) convs cards
         ∧ length cards = length convs)
    ∧ (Forall card_ready convs → is_ok (home_page convs) = true).
Proof.
  destruct (archive_is_file w) eqn:Hdir.
  { by rewrite get_all_conversations_run, Hdir. }
  exists (all_loaded w).
  split; [by rewrite get_all_conversations_run, Hdir|].
  split; [apply all_loaded_elem|]. split.
  { unfold web_ui.api_conversations.
    by rewrite bind_run, get_all_conversations_run, Hdir. }
  split; [by rewrite home_run, Hdir|]. split.
  - intros cards Hc%mapR_Forall2. split; [done|].
    symmetry. by eapply Forall2_length.
  - intros Hready. unfold home_page.
    destruct (all_loaded w) as [|conv convs] eqn:Hl; [done|].
    assert (is_ok (mapR web_ui.render_card (conv :: convs)) = true) as Hok.
    { apply mapR_ok. eapply Forall_impl; [done|].
      intros ?. apply render_card_ready. }
    by destruct (mapR web_ui.render_card (conv :: convs)).
Qed.
End Home.

(** An archive with one day's directory holding a saved conversation and a
    file whose JSON value is an empty array. *)
Lemma get_all_conversations_loads_witness :
  let a := [("id", JStr "a"); ("title", JStr "T")] in
  let w := world_of {[ "2025-12-10" :=
             Dir {[ "a.json" := File (Document (JObj a));
                    "b.json" := File (Document (JList [])) ]} ]} in
  ∃ convs,
    web_ui.get_all_conversations (listing := map_order)
      (platform := demo_platform) w = (Ok convs, w)
    ∧ JObj (a ++ [("_file", JStr "archive/2025-12-10/a.json")]) ∈ convs
    ∧ is_ok (home_page (platform := demo_platform) convs) = true.
Proof.
  intros a w.
  destruct (get_all_conversations_loads
              (platform := demo_platform) (listing := map_order) w)
    as (convs & Hrun & Helem & _ & _ & _ & Hready).
  exists convs. split; [exact Hrun|]. split.
  - apply Helem. exists "2025-12-10", "a.json", a. vm_compute. repeat split.
  - apply Hready. apply Forall_forall. intros conv (d & f & o & Hf & _ & ->)%Helem.
    assert (o = a) as ->.
    { apply lookup_file_path, lookup_path_entry in Hf as (files & Hd & Hf).
      unfold lookup_entry, w, world_of in Hd. simpl in Hd.
      apply lookup_singleton_Some in Hd as [<- [= <-]].
      apply lookup_insert_Some in Hf as [[_ Hf]|[_ Hf]]; [congruence|].
      by apply lookup_singleton_Some in Hf as [_ ?]. }
    eexists _, _. split; [reflexivity|]. split; [reflexivity|].
    vm_compute. repeat split.
Defined.

(** C4, as stated, fails: [b.json] parses (to an empty array) and what it
    parses to is not in the returned list. *)
Lemma get_all_conversations_skips :
  let w := world_of {[ "2025-12-10" :=
             Dir {[ "a.json" := File (Document (JObj [("id", JStr "a")]));
                    "b.json" := File (Document (JList [])) ]} ]} in
  (lookup_file w "2025-12-10" "b.json" ≫= λ t, Some (json_load t))
  = Some (Ok (JList []))
  ∧ web_ui.get_all_conversations (listing := map_order)
      (platform := demo_platform) w
    = (Ok [JObj [("id", JStr "a");
                 ("_file", JStr "archive/2025-12-10/a.json")]], w)
  ∧ JList [] ∉ [JObj [("id", JStr "a");
                      ("_file", JStr "archive/2025-12-10/a.json")]].
Proof.
  intros w. split; [by vm_compute|]. split; [by vm_compute|].
  by intros [=]%list_elem_of_singleton.
Qed.

(** * Saving (mcp_server.save_conversation) *)










Section Save.
Context {platform : Platform} {listing : Listing}.
Import mcp_server.

Variables (env : draw) (title summary : string) (messages : list json).
Variables (tags key_points : option (list string)).

Let d := strftime_date (utcnow env).
Let f := uuid4 env +:+ ".json".
Let payload := payload_of env title summary messages tags key_points.
Let receipt := receipt_of env title messages (path_str d f).

Lemma print_run (line : string) (w : world) :
  print line w = (Ok (), {| fs := fs w; stdout := stdout w ++ [line] |}).
Proof. reflexivity. Qed.

(** A save either is refused by the file system, and then changes
    nothing, or returns the receipt, having written the payload and
    printed its log. *)
Lemma save_conversation_run w :
  save_conversation env title summary messages tags key_points w
  = match write_refused w d f with
    | Some e => (Raise e, w)
    | None =>
        (Ok (json_dump receipt),
         {| fs := Some (saved_tree w d f payload);
            stdout := stdout w ++ save_log env title messages tags |})
    end.
Proof.
  assert (∀ root files out,
    root !! d = Some (Dir files) →
    (∀ sub, files !! f ≠ Some (Dir sub)) →
    (_ ← open_write d f (json_dump payload);
     _ ← print (nl +:+ str_repeat 60 "=");
     _ ← print "CONVERSATION SAVED";
     _ ← print (str_repeat 60 "=");
     _ ← print ("ID:       " +:+ uuid4 env);
     _ ← print ("Title:    " +:+ title);
     _ ← print ("Messages: " +:+ str_of_Z (Z.of_nat (length messages)));
     _ ← print ("Tags:     " +:+ py_str (or_empty tags));
     _ ← print ("File:     " +:+ path_str d f);
     _ ← print (str_repeat 60 "=" +:+ nl);
     mret (json_dump receipt)) {| fs := Some (Dir root); stdout := out |}
    = (Ok (json_dump receipt),
       {| fs := Some (Dir (<[d := Dir (<[f := File (json_dump payload)]> files)]>
                             root));
          stdout := out ++ save_log env title messages tags |})) as Hwrite.
  { intros root files out Hroot Hfile. rewrite bind_run. unfold open_write.
    cbn [fs stdout]. rewrite Hroot.
    assert (∀ (e : option tree) (a b : result unit * world),
              (∀ sub, e ≠ Some (Dir sub)) →
              match e with Some (Dir _) => a | _ => b end = b) as Hcase.
    { intros [[t|sub]|] a b Hne; try done. by destruct (Hne sub). }
    rewrite Hcase by done.
    repeat (rewrite bind_run, print_run; cbn [fs stdout]).
    unfold save_log. fold d f. by rewrite <- !app_assoc. }
  unfold save_conversation, write_refused, saved_tree, files_of,
    lookup_path, lookup_entry, archive_is_file.
  fold d f payload receipt. rewrite bind_run. unfold mkdir.
  destruct w as [[[t|root]|] out]; cbn [fs stdout entries_of].
  - done.
  - destruct (root !! d) as [[t|files]|] eqn:Hroot; cbn [entries_of].
    + done.
    + destruct (files !! f) as [[t|sub]|] eqn:Hfile.
      * apply Hwrite; [done|]. intros sub. by rewrite Hfile.
      * rewrite bind_run. unfold open_write. cbn [fs stdout].
        by rewrite Hroot, Hfile.
      * apply Hwrite; [done|]. intros sub. by rewrite Hfile.
    + rewrite lookup_empty.
      rewrite (Hwrite _ ∅) by (by rewrite ?lookup_insert_eq, ?lookup_empty).
      by rewrite insert_insert_eq.
  - rewrite !lookup_empty. cbn [entries_of]. rewrite lookup_empty.
    rewrite (Hwrite _ ∅) by (by rewrite ?lookup_singleton_eq, ?lookup_empty).
    by rewrite insert_singleton_eq, insert_empty.
Qed.

(** Where a successful save leaves the archive. *)
Lemma save_conversation_ok w w' r :
  save_conversation env title summary messages tags key_points w = (Ok r, w') →
  write_refused w d f = None
  ∧ r = json_dump receipt
  ∧ fs w' = Some (saved_tree w d f payload)
  ∧ stdout w' = stdout w ++ save_log env title messages tags.
Proof.
  rewrite save_conversation_run.
  destruct (write_refused w d f); [done|]. by intros [= <- <-].
Qed.

Lemma saved_path_new w w' :
  fs w' = Some (saved_tree w d f payload) →
  lookup_path w' d f = Some (File (json_dump payload)).
Proof.
  intros Hfs. unfold lookup_path, lookup_entry. rewrite Hfs. simpl.
  rewrite lookup_insert_eq. simpl. by rewrite lookup_insert_eq.
Qed.

Lemma saved_lookup_new w w' :
  fs w' = Some (saved_tree w d f payload) →
  lookup_file w' d f = Some (json_dump payload).
Proof. intros Hfs. by apply lookup_file_path, (saved_path_new w). Qed.

Lemma saved_entry_other w w' d' :
  fs w' = Some (saved_tree w d f payload) →
  d' ≠ d →
  lookup_entry w' d' = lookup_entry w d'.
Proof.
  intros Hfs Hne. unfold lookup_entry. rewrite Hfs. simpl.
  by rewrite lookup_insert_ne.
Qed.

Lemma saved_path_other w w' d' f' :
  fs w' = Some (saved_tree w d f payload) →
  (d', f') ≠ (d, f) →
  lookup_path w' d' f' = lookup_path w d' f'.
Proof.
  intros Hfs Hne. destruct (decide (d' = d)) as [->|Hd].
  - unfold lookup_path at 1. unfold lookup_entry. rewrite Hfs. simpl.
    rewrite lookup_insert_eq. simpl.
    rewrite lookup_insert_ne by congruence. done.
  - unfold lookup_path. by rewrite (saved_entry_other w w').
Qed.


Lemma saved_archive_inv w w' :
  fs w' = Some (saved_tree w d f payload) →
  archive_inv w → archive_inv w'.
Proof.
  intros Hfs (_ & Hdirs & Hfiles). split; [|split].
  - unfold archive_is_file. by rewrite Hfs.
  - intros d' n Hn. destruct (decide (d' = d)) as [->|Hne].
    + unfold lookup_entry in Hn. rewrite Hfs in Hn. simpl in Hn.
      rewrite lookup_insert_eq in Hn. injection Hn as <-. by eexists.
    + rewrite (saved_entry_other w w' d' Hfs Hne) in Hn. by eapply Hdirs.
  - intros d' f' e He. destruct (decide ((d', f') = (d, f))) as [[= -> ->]|Hne].
    + rewrite (saved_path_new w w' Hfs) in He. injection He as <-.
      by eexists _, (uuid4 env), (utcnow env).
    + rewrite (saved_path_other w w' d' f' Hfs Hne) in He. by eapply Hfiles.
Qed.

(** C1.  A call to [save_conversation] goes one of two ways.  Where the
    file system refuses the write ([mkdir] raises because the archive path
    or the path of the day's directory is a regular file, or [open]
    because the path of the file is a directory) the call raises that
    exception and leaves everything as it was.  Everywhere else it
    returns: the identifier is the UUID drawn by [uuid4] in this call and
    the timestamp the time read from [utcnow]; the file
    [archive/<date>/<id>.json] now parses to the payload, and no other
    path under the archive has changed; the payload has the fields [id],
    [title], [summary], [messages], [tags] and [key_points] (each [[]]
    when [None] was passed), [saved_at] and [message_count], the length
    of [messages]; and the string returned is the JSON text of an object
    with [status] ["success"], that [id], [title], [message_count],
    [saved_at] and the path of the file. *)
Theorem save_conversation_writes_one_file (w : world) :
  match write_refused w d f with
  | Some e =>
      save_conversation env title summary messages tags key_points w
      = (Raise e, w)
  | None =>
      ∃ w',
        save_conversation env title summary messages tags key_points w
        = (Ok (json_dump receipt), w')
        ∧ (lookup_file w' d f ≫= λ t, Some (json_load t)) = Some (Ok payload)
        ∧ (∀ d' f', (d', f') ≠ (d, f) →
             lookup_path w' d' f' = lookup_path w d' f')
        ∧ (∀ d', d' ≠ d → lookup_entry w' d' = lookup_entry w d')
        ∧ getitem payload "id" = Ok (JStr (uuid4 env))
        ∧ getitem payload "title" = Ok (JStr title)
        ∧ getitem payload "summary" = Ok (JStr summary)
        ∧ getitem payload "messages" = Ok (JList messages)
        ∧ getitem payload "tags" = Ok (JList (JStr <$> default [] tags))
        ∧ getitem payload "key_points"
          = Ok (JList (JStr <$> default [] key_points))
        ∧ getitem payload "saved_at" = Ok (JStr (isoformat (utcnow env)))
        ∧ getitem payload "message_count"
          = Ok (JInt (Z.of_nat (length messages)))
        ∧ getitem receipt "status" = Ok (JStr "success")
        ∧ getitem receipt "id" = Ok (JStr (uuid4 env))
        ∧ getitem receipt "title" = Ok (JStr title)
        ∧ getitem receipt "message_count"
          = Ok (JInt (Z.of_nat (length messages)))
        ∧ getitem receipt "saved_at" = Ok (JStr (isoformat (utcnow env)))
        ∧ getitem receipt "file_path" = Ok (JStr (path_str d f))
  end.
Proof.
  pose proof (save_conversation_run w) as Hrun.
  destruct (write_refused w d f) as [e|]; [done|].
  eexists. split; [exact Hrun|]. split.
  { by erewrite saved_lookup_new. }
  split; [intros d' f' Hne; by eapply saved_path_other|].
  split; [intros d' Hne; by eapply saved_entry_other|].
  repeat split.
Qed.

(** C7, as amended.  A successful save keeps the archive a tree of
    conversation files filed by day; when the identifier it draws names
    nothing in the day's directory yet, it adds the file [<id>.json] to
    the directory named for the save date, leaves every entry that was in
    the archive in place with its content, and touches nothing else; and
    running any reader of the web UI leaves the world as it was. *)
Theorem archive_only_grows (w w' : world) (r : text) :
  save_conversation env title summary messages tags key_points w = (Ok r, w') →
  (archive_inv w → archive_inv w')
  ∧ (lookup_path w d f = None →
     endswith f ".json" = true
     ∧ lookup_file w' d f = Some (json_dump payload)
     ∧ (∀ d' f' e, lookup_path w d' f' = Some e → lookup_path w' d' f' = Some e)
     ∧ (∀ d' f', (d', f') ≠ (d, f) → lookup_path w' d' f' = lookup_path w d' f')
     ∧ (∀ d', d' ≠ d → lookup_entry w' d' = lookup_entry w d'))
  ∧ (∀ w0 conv_id,
       (web_ui.get_all_conversations w0).2 = w0
       ∧ (web_ui.get_conversation conv_id w0).2 = w0
       ∧ (web_ui.home w0).2 = w0
       ∧ (web_ui.conversation_detail conv_id w0).2 = w0
       ∧ (web_ui.api_conversations w0).2 = w0
       ∧ (web_ui.trending w0).2 = w0
       ∧ (web_ui.roadmap w0).2 = w0).
Proof.
  intros (_ & _ & Hfs & _)%save_conversation_ok.
  split; [by apply saved_archive_inv|]. split.
  - intros Hnew. split; [apply endswith_app|].
    split; [by eapply saved_lookup_new|]. split; [|split].
    + intros d' f' e He. erewrite saved_path_other; [done..|].
      intros [= -> ->]. congruence.
    + intros d' f' Hne. by eapply saved_path_other.
    + intros d' Hne. by eapply saved_entry_other.
  - intros w0 conv_id.
    rewrite get_all_conversations_run, get_conversation_run, home_run.
    rewrite conversation_detail_run, get_conversation_run.
    unfold web_ui.api_conversations. rewrite bind_run, get_all_conversations_run.
    destruct (archive_is_file w0); [repeat split|].
    do 3 (split; [done|]). split; [|split; [done|]; split].
    + destruct (first_stop _) as [conv|e]; cbn [fmap result_fmap]; [|done].
      by destruct (truthy _).
    + unfold web_ui.trending. rewrite bind_run. unfold lift.
      by destruct (foldlR _ _ _).
    + unfold web_ui.roadmap. rewrite bind_run. unfold lift.
      by destruct (foldlR _ _ _).
Qed.

(** C9, as amended.  After a successful save whose identifier [X] occurs
    in no [*.json] name of the archive yet, [web_ui.get_conversation X]
    returns the saved object: its [title], [summary], [messages], [tags],
    [key_points] and [message_count] are the saved ones, and
    [message_count] is the length of [messages]. *)
Theorem save_then_get_conversation (w w' : world) (r : text) :
  save_conversation env title summary messages tags key_points w = (Ok r, w') →
  unused_id w (uuid4 env) →
  (json_load r ≫= λ v, getitem v "id") = Ok (JStr (uuid4 env))
  ∧ ∃ conv,
      web_ui.get_conversation (uuid4 env) w' = (Ok conv, w')
      ∧ getitem conv "title" = Ok (JStr title)
      ∧ getitem conv "summary" = Ok (JStr summary)
      ∧ getitem conv "messages" = Ok (JList messages)
      ∧ getitem conv "tags" = Ok (or_empty tags)
      ∧ getitem conv "key_points" = Ok (or_empty key_points)
      ∧ getitem conv "message_count" = Ok (JInt (Z.of_nat (length messages))).
Proof.
  intros (_ & -> & Hfs & _)%save_conversation_ok Hfresh. split; [done|].
  exists payload.
  destruct (get_conversation_match w' (uuid4 env))
    as (d' & f' & e & He & Hj & Hc & ->).
  { exists d, f, (File (json_dump payload)). split; [by eapply saved_path_new|].
    split; [apply endswith_app|]. apply str_contains_self_app. }
  destruct (decide ((d', f') = (d, f))) as [[= -> ->]|Hne].
  - erewrite saved_path_new in He by done. injection He as <-.
    repeat split.
  - erewrite saved_path_other in He by done.
    by rewrite (Hfresh d' f' e) in Hc.
Qed.
End Save.

(** The first save into a world with no archive yet. *)
Lemma save_conversation_writes_one_file_witness :
  let msg := JObj [("role", JStr "user"); ("content", JStr "hi")] in
  ∃ w',
    mcp_server.save_conversation (platform := demo_platform)
      demo_draw "T" "S" [msg] None (Some ["k"]) no_archive
    = (Ok (Document
             (JObj [("status", JStr "success");
                    ("id", JStr "69399ea2-f73c-432f-9de1-7a39cf246efc");
                    ("title", JStr "T");
                    ("message_count", JInt 1);
                    ("saved_at", JStr "2025-12-10T09:05:03.001200");
                    ("file_path",
                     JStr "archive/2025-12-10/69399ea2-f73c-432f-9de1-7a39cf246efc.json")])),
       w')
    ∧ (lookup_file w' "2025-12-10" "69399ea2-f73c-432f-9de1-7a39cf246efc.json"
       ≫= λ t, Some (json_load t))
      = Some (Ok (JObj [("id", JStr "69399ea2-f73c-432f-9de1-7a39cf246efc");
                        ("title", JStr "T");
                        ("summary", JStr "S");
                        ("messages", JList [msg]);
                        ("tags", JList []);
                        ("key_points", JList [JStr "k"]);
                        ("saved_at", JStr "2025-12-10T09:05:03.001200");
                        ("message_count", JInt 1)])).
Proof.
  intros msg.
  destruct (save_conversation_writes_one_file (platform := demo_platform)
              demo_draw "T" "S" [msg] None (Some ["k"]) no_archive)
    as (w' & Hrun & Hfile & _).
  exists w'. split; [exact Hrun | exact Hfile].
Defined.

(** A second save into the archive the first one made. *)
Lemma archive_only_grows_witness :
  let first := "11111111-2222-4333-8444-555555555555.json" in
  let w := one_file "2025-12-10" first
             (Document (JObj [("id", JStr "11111111-2222-4333-8444-555555555555");
                              ("saved_at", JStr "2025-12-10T08:00:00")])) in
  let w' := (mcp_server.save_conversation (platform := demo_platform)
               demo_draw "T" "S" [] None None w).2 in
  lookup_file w' "2025-12-10" first = lookup_file w "2025-12-10" first
  ∧ is_Some (lookup_file w' "2025-12-10"
               "69399ea2-f73c-432f-9de1-7a39cf246efc.json")
  ∧ archive_inv w'.
Proof.
  intros first w w'.
  destruct (archive_only_grows (platform := demo_platform) (listing := map_order)
              demo_draw "T" "S" [] None None w w'
              (json_dump (mcp_server.receipt_of
                 demo_draw "T" []
                 "archive/2025-12-10/69399ea2-f73c-432f-9de1-7a39cf246efc.json")))
    as (Hinv & Hgrow & _).
  { vm_compute. reflexivity. }
  destruct Hgrow as (_ & Hnew & _ & Hother & _).
  { vm_compute. reflexivity. }
  split; [|split].
  - unfold lookup_file. rewrite Hother; [done|]. intros [=].
  - eexists. exact Hnew.
  - apply Hinv. split; [done|]. split.
    + intros d n Hn. unfold lookup_entry, w, one_file, world_of in Hn.
      simpl in Hn. apply lookup_singleton_Some in Hn as [_ <-]. by eexists.
    + intros d f e (-> & -> & ->)%one_file_path.
      eexists _, "11111111-2222-4333-8444-555555555555",
        {| mcp_server.year := 2025; mcp_server.month := 12;
           mcp_server.day := 10; mcp_server.hour := 8;
           mcp_server.minute := 0; mcp_server.second := 0;
           mcp_server.microsecond := 0 |}.
      split; [reflexivity|]. repeat split.
Defined.

(** C7, as stated, fails: a save that draws the identifier of a
    conversation already filed that day returns, and the file of that
    conversation now holds the new one. *)
Lemma save_conversation_overwrites :
  let name := "69399ea2-f73c-432f-9de1-7a39cf246efc.json" in
  let old := Document (JObj [("id", JStr "69399ea2-f73c-432f-9de1-7a39cf246efc");
                             ("title", JStr "OLD")]) in
  let w := one_file "2025-12-10" name old in
  ∃ r w',
    mcp_server.save_conversation (platform := demo_platform)
      demo_draw "T" "S" [] None None w = (Ok r, w')
    ∧ lookup_file w "2025-12-10" name = Some old
    ∧ (lookup_file w' "2025-12-10" name ≫= λ t, Some (json_load t))
      = Some (Ok (mcp_server.payload_of demo_draw "T" "S" [] None None))
    ∧ ∀ d f, is_Some (lookup_path w' d f) ↔ is_Some (lookup_path w d f).
Proof.
  intros name old w.
  pose proof (save_conversation_run (platform := demo_platform)
                demo_draw "T" "S" [] None None w) as Hrun.
  change (write_refused w _ _) with (@None exn) in Hrun. cbv iota in Hrun.
  eexists _, _. split; [exact Hrun|]. split; [by vm_compute|].
  split; [by vm_compute|]. intros d f.
  destruct (decide ((d, f) = ("2025-12-10", name))) as [[= -> ->]|Hne].
  - split; intros _; eexists; vm_compute; reflexivity.
  - erewrite (saved_path_other demo_draw "T" "S" [] None None w);
      [done | reflexivity | exact Hne].
Qed.

(** Saving into a world with no archive and asking for the identifier
    returned. *)
Lemma save_then_get_conversation_witness :
  let w' := (mcp_server.save_conversation (platform := demo_platform)
               demo_draw "T" "S" [] None (Some ["k"]) no_archive).2 in
  ∃ conv,
    web_ui.get_conversation (listing := map_order)
      "69399ea2-f73c-432f-9de1-7a39cf246efc" w' = (Ok conv, w')
    ∧ getitem conv "title" = Ok (JStr "T")
    ∧ getitem conv "tags" = Ok (JList [])
    ∧ getitem conv "key_points" = Ok (JList [JStr "k"])
    ∧ getitem conv "message_count" = Ok (JInt 0).
Proof.
  intros w'.
  destruct (save_then_get_conversation (platform := demo_platform)
              (listing := map_order) demo_draw "T" "S" [] None (Some ["k"])
              no_archive w'
              (json_dump (mcp_server.receipt_of
                 demo_draw "T" []
                 "archive/2025-12-10/69399ea2-f73c-432f-9de1-7a39cf246efc.json")))
    as (_ & conv & Hget & Htitle & _ & _ & Htags & Hkp & Hcount).
  { vm_compute. reflexivity. }
  { intros d f e He. by vm_compute in He. }
  exists conv. split; [exact Hget|]. split; [exact Htitle|].
  split; [exact Htags|]. split; [exact Hkp | exact Hcount].
Defined.

(** C9, as stated, fails: the identifier drawn is already in the name of
    a file kept under another day, and where the directory listing shows
    that day first, [web_ui.get_conversation] returns the older file. *)
Lemma get_conversation_older_file :
  let id := "69399ea2-f73c-432f-9de1-7a39cf246efc" in
  let old := JObj [("id", JStr id); ("title", JStr "OLD")] in
  let w := one_file "2025-12-09" (id +:+ ".json") (Document old) in
  ∃ r w',
    mcp_server.save_conversation (platform := demo_platform)
      demo_draw "T" "S" [] None None w = (Ok r, w')
    ∧ (json_load r ≫= λ v, getitem v "id") = Ok (JStr id)
    ∧ web_ui.get_conversation (listing := reverse_order) id w' = (Ok old, w')
    ∧ getitem old "title" ≠ Ok (JStr "T").
Proof.
  intros id old w. eexists _, _.
  split; [by vm_compute|]. split; [by vm_compute|]. split; [by vm_compute|].
  discriminate.
Qed.

(** * The two screens of sample data (web_ui.trending, web_ui.roadmap) *)

Section Static.
Context {platform : Platform} {listing : Listing}.

Lemma trending_run (w : world) : web_ui.trending w = (Ok trending_page, w).
Proof. reflexivity. Qed.

Lemma roadmap_run (w : world) : web_ui.roadmap w = (Ok roadmap_page, w).
Proof. reflexivity. Qed.

(** C5.  The trending route and the roadmap route each answer with one
    fixed page, whatever the archive holds: over any two worlds the
    responses of the trending route are equal, and so are those of the
    roadmap route. *)
Theorem static_pages_ignore_archive :
  (∀ w, web_ui.trending w = (Ok trending_page, w))
  ∧ (∀ w, web_ui.roadmap w = (Ok roadmap_page, w))
  ∧ (∀ w1 w2, (web_ui.trending w1).1 = (web_ui.trending w2).1)
  ∧ (∀ w1 w2, (web_ui.roadmap w1).1 = (web_ui.roadmap w2).1).
Proof.
  split; [apply trending_run|]. split; [apply roadmap_run|].
  split; intros w1 w2.
  - by rewrite !trending_run.
  - by rewrite !roadmap_run.
Qed.
End Static.

(** * The fetch client (fetch_chatgpt.py) *)

Section Fetch.
Context {platform : Platform}.
Variable server : list ChatGPTClient.request → ChatGPTClient.request
                  → ChatGPTClient.response.
Import ChatGPTClient.

Lemma requests_get_run u ps s :
  requests_get server u ps s
  = (Ok (server (sent s)
           {| url := u; params := ps; req_cookies := cookies (self s);
              req_headers := headers (self s) |}),
     sent_more s {| url := u; params := ps; req_cookies := cookies (self s);
                    req_headers := headers (self s) |}).
Proof. reflexivity. Qed.

Lemma get_access_token_run s :
  get_access_token server s
  = let req := session_request (self s) in
    let resp := server (sent s) req in
    if status_code resp =? 200 then
      match response_json resp ≫= λ data, dict_get_none data "accessToken" with
      | Ok token => (Ok token, with_token token (sent_more s req))
      | Raise e => (Raise e, sent_more s req)
      end
    else (Ok JNull, sent_more s req).
Proof.
  unfold get_access_token. rewrite bind_run, requests_get_run.
  fold (session_request (self s)). cbv zeta.
  destruct (status_code _ =? 200); [|done].
  rewrite bind_run. unfold lift.
  destruct (response_json _) as [data|e]; [|done]. cbn [mbind result_bind].
  rewrite bind_run. destruct (dict_get_none data "accessToken") as [token|e];
    [|done].
  rewrite bind_run. unfold modify. rewrite bind_run. unfold with_token, when.
  by destruct (truthy token).
Qed.

(** Whatever comes back, [get_access_token] has sent the one session
    request. *)
Lemma get_access_token_sent s :
  sent (get_access_token server s).2 = sent s ++ [session_request (self s)].
Proof.
  rewrite get_access_token_run. cbv zeta.
  destruct (status_code _ =? 200); [|done].
  destruct (_ ≫= _) as [token|e]; [|done]. unfold with_token.
  by destruct (truthy token).
Qed.

(** The body [get_conversation] and [list_conversations] share: fetch a
    token if none is held, then one GET of [u]. *)
Lemma fetch_run (u : string) (ps : list (string * json)) s :
  (token ← gets (λ s, access_token (self s));
   _ ← when (negb (truthy token)) (_ ← get_access_token server; mret ());
   response ← requests_get server u ps;
   if status_code response =? 200 then lift (response_json response)
   else mret JNull) s
  = let prep := if holds_token s then (Ok JNull, s)
                else get_access_token server s in
    match prep.1 with
    | Ok _ =>
        let req := {| url := u; params := ps;
                      req_cookies := cookies (self prep.2);
                      req_headers := headers (self prep.2) |} in
        (body_or_none (server (sent prep.2) req), sent_more prep.2 req)
    | Raise e => (Raise e, prep.2)
    end.
Proof.
  rewrite bind_run. unfold gets, holds_token. rewrite bind_run.
  destruct (truthy (access_token (self s))); cbn [negb when].
  - cbn [fst snd mret M_ret]. rewrite bind_run, requests_get_run.
    unfold body_or_none. by destruct (status_code _ =? 200).
  - rewrite bind_run.
    destruct (get_access_token server s) as [[token|e] s0]; [|done].
    cbn [fst snd mret M_ret]. rewrite bind_run, requests_get_run.
    unfold body_or_none. by destruct (status_code _ =? 200).
Qed.

Lemma get_conversation_fetch conversation_id s :
  get_conversation server conversation_id s
  = let prep := if holds_token s then (Ok JNull, s)
                else get_access_token server s in
    match prep.1 with
    | Ok _ =>
        let req := conversation_request (self prep.2) conversation_id in
        (body_or_none (server (sent prep.2) req), sent_more prep.2 req)
    | Raise e => (Raise e, prep.2)
    end.
Proof. apply fetch_run. Qed.

Lemma list_conversations_fetch limit offset s :
  list_conversations server limit offset s
  = let prep := if holds_token s then (Ok JNull, s)
                else get_access_token server s in
    match prep.1 with
    | Ok _ =>
        let req := list_request (self prep.2) limit offset in
        (body_or_none (server (sent prep.2) req), sent_more prep.2 req)
    | Raise e => (Raise e, prep.2)
    end.
Proof. apply fetch_run. Qed.

Lemma alist_get_set {V} (k : string) (v : V) (kvs : list (string * V)) :
  alist_get k (alist_set k v kvs) = Some v.
Proof.
  induction kvs as [|[k' v'] kvs IH]; simpl.
  - by rewrite String.eqb_refl.
  - destruct (String.eqb k k') eqn:Hk; simpl; by rewrite ?String.eqb_refl, ?Hk.
Qed.

Lemma body_or_none_other resp :
  status_code resp ≠ 200 → body_or_none resp = Ok JNull.
Proof.
  intros Hs. unfold body_or_none.
  by destruct (Z.eqb_spec (status_code resp) 200).
Qed.

(** C3.  A client just constructed holds no token.  A call of
    [get_conversation] or [list_conversations] on a client that holds none
    sends the session request first; if reading the answer raises, the call
    ends there, and otherwise the one request to the call's own endpoint
    follows, sent by the client as the token step left it; and when the
    session answer has status 200 and a true [accessToken], that step has
    stored the token and set the [authorization] header to
    ["Bearer <token>"], which the request that follows carries. *)
Theorem token_fetched_first (s : session) (jar : list (string * string))
    (conversation_id : string) (limit offset : Z) :
  let token_run := get_access_token server s in
  let s0 := token_run.2 in
  access_token (init jar) = JNull
  ∧ holds_token (fresh_session jar) = false
  ∧ (holds_token s = false →
     sent s0 = sent s ++ [session_request (self s)]
     ∧ (∀ e, token_run.1 = Raise e →
          get_conversation server conversation_id s = (Raise e, s0)
          ∧ list_conversations server limit offset s = (Raise e, s0))
     ∧ (is_ok token_run.1 = true →
          sent (get_conversation server conversation_id s).2
          = sent s ++ [session_request (self s);
                       conversation_request (self s0) conversation_id]
          ∧ sent (list_conversations server limit offset s).2
            = sent s ++ [session_request (self s);
                         list_request (self s0) limit offset])
     ∧ (∀ kvs token,
          status_code (server (sent s) (session_request (self s))) = 200 →
          json_body (server (sent s) (session_request (self s)))
          = Some (JObj kvs) →
          alist_get "accessToken" kvs = Some token →
          truthy token = true →
          token_run.1 = Ok token
          ∧ access_token (self s0) = token
          ∧ alist_get "authorization" (headers (self s0))
            = Some ("Bearer " +:+ py_str token)
          ∧ req_headers (conversation_request (self s0) conversation_id)
            = headers (self s0)
          ∧ req_headers (list_request (self s0) limit offset)
            = headers (self s0))).
Proof.
  intros token_run s0. split; [done|]. split; [done|]. intros Hno.
  pose proof (get_access_token_sent s) as Hsent. fold token_run s0 in Hsent.
  split; [done|]. split; [|split].
  - intros e He. rewrite get_conversation_fetch, list_conversations_fetch.
    rewrite Hno. fold token_run. cbv zeta. by rewrite He.
  - intros Hok. rewrite get_conversation_fetch, list_conversations_fetch.
    rewrite Hno. fold token_run. cbv zeta.
    destruct (token_run.1) as [token|e]; [|done].
    unfold sent_more. cbn [sent snd]. fold s0.
    by rewrite Hsent, <- !app_assoc.
  - intros kvs token Hstatus Hbody Htoken Htruthy.
    unfold s0, token_run. rewrite get_access_token_run. cbv zeta.
    rewrite Hstatus. unfold response_json. rewrite Hbody.
    cbn [mbind result_bind dict_get_none dict_get]. rewrite Htoken.
    cbn [default from_option id]. unfold with_token. rewrite Htruthy.
    change (200 =? 200) with true. cbv iota. cbn [fst snd].
    split; [done|]. split; [done|]. split; [|done].
    unfold set_header. cbn [self headers]. apply alist_get_set.
Qed.

(** C6, as amended.  [get_access_token] sends exactly one request, the
    session request, and returns [None] when the status is not 200 or when
    the 200 answer is a JSON object without [accessToken].
    [get_conversation] and [list_conversations] send exactly one request to
    their own endpoint whenever the client holds a token or the token step
    returns, and return [None] when that request's status is not 200; when
    the token step raises they raise too, having sent the session request
    only.  No request is sent twice. *)
Theorem single_get_no_retry (s : session) (conversation_id : string)
    (limit offset : Z) :
  let session := session_request (self s) in
  let token_run := get_access_token server s in
  let s0 := if holds_token s then s else token_run.2 in
  let own_conv := conversation_request (self s0) conversation_id in
  let own_list := list_request (self s0) limit offset in
  sent token_run.2 = sent s ++ [session]
  ∧ (status_code (server (sent s) session) ≠ 200 → token_run.1 = Ok JNull)
  ∧ (∀ kvs, status_code (server (sent s) session) = 200 →
       json_body (server (sent s) session) = Some (JObj kvs) →
       alist_get "accessToken" kvs = None →
       token_run.1 = Ok JNull)
  ∧ (holds_token s = true ∨ is_ok token_run.1 = true →
       get_conversation server conversation_id s
       = (body_or_none (server (sent s0) own_conv), sent_more s0 own_conv)
       ∧ list_conversations server limit offset s
         = (body_or_none (server (sent s0) own_list), sent_more s0 own_list)
       ∧ (status_code (server (sent s0) own_conv) ≠ 200 →
            (get_conversation server conversation_id s).1 = Ok JNull)
       ∧ (status_code (server (sent s0) own_list) ≠ 200 →
            (list_conversations server limit offset s).1 = Ok JNull))
  ∧ (holds_token s = false → ∀ e, token_run.1 = Raise e →
       get_conversation server conversation_id s = (Raise e, token_run.2)
       ∧ list_conversations server limit offset s = (Raise e, token_run.2)).
Proof.
  intros session token_run s0 own_conv own_list.
  split; [apply get_access_token_sent|]. split; [|split; [|split]].
  - intros Hs. unfold token_run. rewrite get_access_token_run. cbv zeta.
    fold session. by destruct (Z.eqb_spec (status_code (server (sent s) session)) 200).
  - intros kvs Hs Hb Hk. unfold token_run. rewrite get_access_token_run.
    cbv zeta. fold session. rewrite Hs. unfold response_json. rewrite Hb.
    cbn [mbind result_bind dict_get_none dict_get]. by rewrite Hk.
  - intros Hready.
    assert (get_conversation server conversation_id s
            = (body_or_none (server (sent s0) own_conv), sent_more s0 own_conv)
            ∧ list_conversations server limit offset s
              = (body_or_none (server (sent s0) own_list), sent_more s0 own_list))
      as [Hc Hl].
    { rewrite get_conversation_fetch, list_conversations_fetch.
      unfold own_conv, own_list, s0. fold token_run. cbv zeta.
      destruct (holds_token s); [done|].
      destruct Hready as [?|Hok]; [done|].
      by destruct (token_run.1). }
    split; [done|]. split; [done|]. rewrite Hc, Hl.
    split; apply body_or_none_other.
  - intros Hno e He. rewrite get_conversation_fetch, list_conversations_fetch.
    rewrite Hno. fold token_run. cbv zeta. by rewrite He.
Qed.
End Fetch.

(** A fresh client against a service that hands out a token. *)
Lemma token_fetched_first_witness :
  let s := fresh_session [("oai-did", "5e1bd3d4")] in
  let run := ChatGPTClient.get_conversation (platform := demo_platform)
               token_server "c1" s in
  ChatGPTClient.url <$> ChatGPTClient.sent run.2
  = ["https://chatgpt.com/api/auth/session";
     "https://chatgpt.com/backend-api/conversation/c1"]
  ∧ alist_get "authorization"
      (ChatGPTClient.headers
         (ChatGPTClient.self
            (ChatGPTClient.get_access_token (platform := demo_platform)
               token_server s).2))
    = Some "Bearer tok".
Proof.
  intros s run.
  destruct (token_fetched_first (platform := demo_platform) token_server s []
              "c1" 20 0)
    as (_ & _ & Hfirst).
  destruct Hfirst as (_ & _ & Hsent & Hheader); [by vm_compute|].
  destruct Hsent as [Hconv _]; [by vm_compute|].
  destruct (Hheader [("accessToken", JStr "tok")] (JStr "tok"))
    as (_ & _ & Hauth & _); [by vm_compute..|].
  split; [|exact Hauth].
  unfold run. rewrite Hconv. by vm_compute.
Defined.

(** A client holding a token against a service that answers 404. *)
Lemma single_get_no_retry_witness :
  let not_found (_ : list ChatGPTClient.request) (_ : ChatGPTClient.request) :=
    {| ChatGPTClient.status_code := 404; ChatGPTClient.json_body := None |} in
  let s := {| ChatGPTClient.self :=
                {| ChatGPTClient.cookies := [];
                   ChatGPTClient.headers := [("authorization", "Bearer tok")];
                   ChatGPTClient.access_token := JStr "tok" |};
              ChatGPTClient.sent := [] |} in
  ChatGPTClient.get_conversation (platform := demo_platform) not_found "c1" s
  = (Ok JNull, sent_more s (conversation_request (ChatGPTClient.self s) "c1"))
  ∧ (ChatGPTClient.get_access_token (platform := demo_platform) not_found s).1
    = Ok JNull.
Proof.
  intros not_found s.
  destruct (single_get_no_retry (platform := demo_platform) not_found s "c1" 20 0)
    as (_ & Hnone & _ & Hown & _).
  destruct Hown as (Hconv & _ & _); [by left|].
  split; [exact Hconv | apply Hnone; by vm_compute].
Defined.

(** C6, as stated, fails.  On a fresh client whose session request is
    answered with status 200 and a body that is not JSON, [get_conversation]
    raises after the session request and never sends its own; and against a
    service that hands out a token, the one call sends two requests. *)
Lemma get_conversation_not_once :
  ChatGPTClient.get_conversation (platform := demo_platform)
    garbage_server "c1" (fresh_session [])
  = (Raise JSONDecodeError,
     sent_more (fresh_session [])
       (session_request (ChatGPTClient.init [])))
  ∧ ChatGPTClient.url <$>
      ChatGPTClient.sent
        (ChatGPTClient.get_conversation (platform := demo_platform)
           token_server "c1" (fresh_session [])).2
    = ["https://chatgpt.com/api/auth/session";
       "https://chatgpt.com/backend-api/conversation/c1"].
Proof. split; by vm_compute. Qed.

(** * Flattening a conversation (ChatGPTClient.extract_messages) *)

Lemma dict_get_field (d : json) (k : string) (dflt v : json) :
  dict_get d k dflt = Ok v → obj_like d = true ∧ v = field_or d k dflt.
Proof. destruct d; try done. by intros [= <-]. Qed.

Lemma dict_get_obj (d : json) (k : string) (dflt : json) :
  obj_like d = true → dict_get d k dflt = Ok (field_or d k dflt).
Proof. by destruct d. Qed.

Lemma py_iter_iterable (v : json) :
  iterable v = true → ∃ ps, py_iter v = Ok ps.
Proof. destruct v; try done; by eexists. Qed.

Section ExtractNode.
Context {platform : Platform}.

(** Invert the successful reads of [extract_node]. *)
Ltac reads_inv :=
  repeat match goal with
  | H : dict_get_none _ _ = Ok _ |- _ =>
      apply dict_get_field in H as [? ->]
  | H : dict_get _ _ _ = Ok _ |- _ =>
      apply dict_get_field in H as [? ->]
  end.

(** One pass of the loop appends the record of the node when the node is
    kept, and nothing otherwise. *)
Lemma extract_node_kept (messages : list json) (item : string * json) r :
  ChatGPTClient.extract_node messages item = Ok r →
  r = messages ++ kept item.
Proof.
  unfold ChatGPTClient.extract_node, kept, shown, message_of, message_text.
  unfold node_message, marked_hidden, content_type_of.
  intros Hr.
  apply result_bind_ok in Hr as (msg & Hmsg & Hr).
  apply dict_get_field in Hmsg as [_ ->].
  destruct (truthy (field_or item.2 "message" JNull)) eqn:Hm; cbn [negb] in Hr;
    [|injection Hr as <-; by rewrite app_nil_r].
  apply result_bind_ok in Hr as (a & Ha & Hr). apply dict_get_field in Ha as [_ ->].
  apply result_bind_ok in Hr as (role & Hrole & Hr).
  apply dict_get_field in Hrole as [_ ->].
  apply result_bind_ok in Hr as (c & Hc & Hr). apply dict_get_field in Hc as [_ ->].
  apply result_bind_ok in Hr as (md & Hmd & Hr).
  apply dict_get_field in Hmd as [_ ->].
  apply result_bind_ok in Hr as (h & Hh & Hr). apply dict_get_field in Hh as [_ ->].
  destruct (truthy (field_or (field_or _ "metadata" _) _ _)) eqn:Hhid;
    [injection Hr as <-; by rewrite app_nil_r|].
  apply result_bind_ok in Hr as (ct & Hct & Hr).
  apply dict_get_field in Hct as [_ ->].
  destruct (eq_str _ "text") eqn:Htext;
    [|injection Hr as <-; by rewrite app_nil_r].
  apply result_bind_ok in Hr as (parts & Hparts & Hr).
  apply dict_get_field in Hparts as [_ ->].
  apply result_bind_ok in Hr as (ps & Hps & Hr). rewrite Hps.
  cbn [andb negb].
  destruct (str_nonempty _) eqn:Hne;
    [|injection Hr as <-; by rewrite app_nil_r].
  apply result_bind_ok in Hr as (t & Ht & Hr). apply dict_get_field in Ht as [_ ->].
  apply result_bind_ok in Hr as (p & Hp & Hr). apply dict_get_field in Hp as [_ ->].
  by injection Hr as <-.
Qed.

(** On a node of the service's shape the pass does not raise. *)
Lemma extract_node_schema (messages : list json) (item : string * json) :
  node_schema item.2 = true →
  ChatGPTClient.extract_node messages item = Ok (messages ++ kept item).
Proof.
  intros [Hnode Hmsg]%andb_true_iff.
  destruct (ChatGPTClient.extract_node messages item) as [r|e] eqn:Hr.
  { by rewrite (extract_node_kept _ _ _ Hr). }
  exfalso. revert Hr. unfold ChatGPTClient.extract_node, dict_get_none.
  rewrite (dict_get_obj item.2 "message") by done. cbn [mbind result_bind].
  unfold message_schema, node_message in Hmsg.
  destruct (truthy (field_or item.2 "message" JNull)); cbn [negb orb] in *;
    [|done].
  repeat (apply andb_true_iff in Hmsg as [Hmsg ?]).
  rewrite (dict_get_obj (field_or item.2 "message" JNull) "author") by done.
  cbn [mbind result_bind]. rewrite (dict_get_obj (field_or _ "author" _)) by done.
  cbn [mbind result_bind].
  rewrite (dict_get_obj (field_or item.2 "message" JNull) "content") by done.
  cbn [mbind result_bind].
  rewrite (dict_get_obj (field_or item.2 "message" JNull) "metadata") by done.
  cbn [mbind result_bind]. rewrite (dict_get_obj (field_or _ "metadata" _)) by done.
  cbn [mbind result_bind]. destruct (truthy _); [done|].
  rewrite (dict_get_obj (field_or _ "content" _) "content_type") by done.
  cbn [mbind result_bind]. destruct (eq_str _ _); [|done].
  rewrite (dict_get_obj (field_or _ "content" _) "parts") by done.
  cbn [mbind result_bind].
  destruct (py_iter_iterable _ ltac:(eassumption)) as [ps ->].
  cbn [mbind result_bind]. destruct (str_nonempty _); [|done].
  rewrite (dict_get_obj (field_or item.2 "message" JNull) "create_time") by done.
  cbn [mbind result_bind]. by rewrite (dict_get_obj item.2 "parent") by done.
Qed.

Lemma extract_loop_kept (items : list (string * json)) (acc r : list json) :
  foldlR ChatGPTClient.extract_node acc items = Ok r →
  r = acc ++ items ≫= kept.
Proof.
  revert acc. induction items as [|item items IH]; intros acc; simpl.
  - intros [= <-]. by rewrite app_nil_r.
  - intros (acc' & ->%extract_node_kept & ->%IH)%result_bind_ok.
    by rewrite <- app_assoc.
Qed.

Lemma extract_loop_schema (items : list (string * json)) (acc : list json) :
  forallb (λ kv, node_schema kv.2) items = true →
  foldlR ChatGPTClient.extract_node acc items = Ok (acc ++ items ≫= kept).
Proof.
  revert acc. induction items as [|item items IH]; intros acc; simpl.
  - intros _. by rewrite app_nil_r.
  - intros [Hitem Hitems]%andb_true_iff.
    rewrite extract_node_schema by done. cbn [mbind result_bind].
    rewrite IH by done. by rewrite <- app_assoc.
Qed.
End ExtractNode.

(** * Sorting by key (list.sort) *)

Section SortPerm.
Context {A : Type}.
Implicit Types (x : json * A) (l run : list (json * A)).

Lemma binary_insert_perm run x r :
  binary_insert run x = Ok r → r ≡ₚ x :: run.
Proof.
  unfold binary_insert. intros (i & _ & [= <-])%result_bind_ok.
  rewrite <- Permutation_middle. by rewrite take_drop.
Qed.

Lemma binarysort_perm run l r :
  binarysort run l = Ok r → r ≡ₚ run ++ l.
Proof.
  unfold binarysort. revert run.
  induction l as [|x l IH]; intros run; simpl.
  - intros [= <-]. by rewrite app_nil_r.
  - intros (run' & Hrun%binary_insert_perm & Hr%IH)%result_bind_ok.
    rewrite Hr, Hrun. simpl. apply Permutation_middle.
Qed.

(** Whatever the sort of a short list returns is a rearrangement of the
    list, however [<] answers. *)
Lemma sort_one_run_perm l r : sort_one_run l = Ok r → r ≡ₚ l.
Proof.
  unfold sort_one_run. destruct (length l <? 2)%nat; [by intros [= <-]|].
  intros ([n descending] & _ & Hr%binarysort_perm)%result_bind_ok.
  rewrite Hr. transitivity (take n l ++ drop n l); [|by rewrite take_drop].
  destruct descending; [by rewrite reverse_Permutation | done].
Qed.

Lemma insert_behind_perm x l : insert_behind x l ≡ₚ x :: l.
Proof.
  induction l as [|y l IH]; simpl; [done|].
  destruct (lt_bool x.1 y.1); [done|]. rewrite IH. apply Permutation_swap.
Qed.

Lemma stable_loop_perm l acc :
  foldl (λ acc x, insert_behind x acc) acc l ≡ₚ acc ++ l.
Proof.
  revert acc. induction l as [|x l IH]; intros acc; simpl.
  - by rewrite app_nil_r.
  - rewrite IH, insert_behind_perm. simpl. apply Permutation_middle.
Qed.

Lemma stable_sorted_perm l : stable_sorted l ≡ₚ l.
Proof. apply stable_loop_perm. Qed.
End SortPerm.

(** ** Under a consistent order *)

Section Consistent.
Context {A : Type}.
Variable ks : list json.
Hypothesis Hks : consistent ks.
Implicit Types (x y : json * A) (l run acc : list (json * A)).

Local Abbreviation keyed_in := (keys_among ks).

Lemma py_lt_consistent (a b : json) :
  a ∈ ks → b ∈ ks → py_lt a b = Ok (lt_bool a b).
Proof.
  intros Ha Hb. destruct Hks as (Hok & _). specialize (Hok a b Ha Hb).
  unfold lt_bool. by destruct (py_lt a b).
Qed.

Lemma lt_bool_irrefl (a : json) : a ∈ ks → lt_bool a a = false.
Proof.
  intros Ha. destruct Hks as (_ & Hasym & _).
  destruct (lt_bool a a) eqn:Hlt; [|done]. by rewrite (Hasym a a) in Hlt.
Qed.

Lemma not_after_trans x y z :
  x.1 ∈ ks → y.1 ∈ ks → z.1 ∈ ks →
  not_after x y → not_after y z → not_after x z.
Proof. destruct Hks as (_ & _ & Htrans). unfold not_after. eauto. Qed.

Lemma lt_not_after x y : x.1 ∈ ks → y.1 ∈ ks →
  lt_bool x.1 y.1 = true → not_after x y.
Proof. destruct Hks as (_ & Hasym & _). unfold not_after. eauto. Qed.

(** An element that is smaller than [y] is smaller than what [y] does
    not come after. *)
Lemma lt_bool_mono x y z :
  x.1 ∈ ks → y.1 ∈ ks → z.1 ∈ ks →
  lt_bool x.1 y.1 = true → not_after y z → lt_bool x.1 z.1 = true.
Proof.
  intros Hx Hy Hz Hlt Hyz. destruct (lt_bool x.1 z.1) eqn:Hxz; [done|].
  assert (not_after y x) as Hyx by (by apply (not_after_trans y z x)).
  unfold not_after in Hyx. congruence.
Qed.

Lemma insert_behind_keyed x l :
  x.1 ∈ ks → keyed_in l → keyed_in (insert_behind x l).
Proof.
  intros Hx Hl. unfold keys_among. rewrite insert_behind_perm. by constructor.
Qed.

Lemma insert_behind_sorted x l :
  x.1 ∈ ks → keyed_in l →
  StronglySorted not_after l → StronglySorted not_after (insert_behind x l).
Proof.
  intros Hx. induction l as [|y l IH]; intros Hl Hs; simpl.
  - by repeat constructor.
  - apply Forall_cons in Hl as [Hy Hl].
    apply StronglySorted_inv in Hs as [Hs Hall].
    destruct (lt_bool x.1 y.1) eqn:Hlt.
    + assert (not_after x y) as Hxy by (by apply lt_not_after).
      constructor; [by constructor|]. constructor; [done|].
      apply Forall_forall. intros z Hz.
      apply (not_after_trans x y z); try done.
      * by eapply Forall_forall in Hl.
      * by eapply Forall_forall in Hall.
    + constructor; [by apply IH|].
      rewrite insert_behind_perm. by constructor.
Qed.

Lemma stable_loop_sorted l acc :
  keyed_in l → keyed_in acc → StronglySorted not_after acc →
  StronglySorted not_after (foldl (λ acc x, insert_behind x acc) acc l).
Proof.
  revert acc. induction l as [|x l IH]; intros acc Hl Hacc Hs; simpl; [done|].
  apply Forall_cons in Hl as [Hx Hl].
  apply IH; [done | by apply insert_behind_keyed | by apply insert_behind_sorted].
Qed.

(** The stable sort of consistently ordered keys is in order. *)
Lemma stable_sorted_sorted l :
  keyed_in l → StronglySorted not_after (stable_sorted l).
Proof. intros Hl. apply stable_loop_sorted; [done| |]; constructor. Qed.

(** Where an element goes. *)
Lemma insert_behind_last x l :
  Forall (λ y, not_after y x) l → insert_behind x l = l ++ [x].
Proof.
  induction 1 as [|y l Hy _ IH]; simpl; [done|].
  unfold not_after in Hy. by rewrite Hy, IH.
Qed.

Lemma insert_behind_at x l (i : nat) :
  (∀ j y, (j < i)%nat → l !! j = Some y → lt_bool x.1 y.1 = false) →
  (∀ y, l !! i = Some y → lt_bool x.1 y.1 = true) →
  (i ≤ length l)%nat →
  insert_behind x l = take i l ++ x :: drop i l.
Proof.
  revert i. induction l as [|y l IH]; intros i Hlo Hhi Hi; simpl.
  - by rewrite take_nil, drop_nil.
  - destruct i as [|i]; simpl.
    + by rewrite (Hhi y).
    + rewrite (Hlo 0%nat y) by (done || lia).
      rewrite (IH i); [done | | | simpl in Hi; lia].
      * intros j z Hj Hz. apply (Hlo (S j) z); [lia | done].
      * intros z Hz. by apply Hhi.
Qed.

Lemma sorted_lookup l (i j : nat) x y :
  keyed_in l → StronglySorted not_after l → (i ≤ j)%nat →
  l !! i = Some x → l !! j = Some y → not_after x y.
Proof.
  intros Hl Hs. revert i j. induction Hs as [|z l Hs IH Hall]; intros i j Hij.
  - done.
  - apply Forall_cons in Hl as [Hz Hl].
    destruct i as [|i], j as [|j]; simpl; try lia.
    + intros [= <-] [= <-]. by apply lt_bool_irrefl.
    + intros [= <-] Hy. eapply Forall_forall in Hall; [done|].
      by eapply list_elem_of_lookup_2.
    + apply IH; [done | lia].
Qed.

(** The binary search returns the place behind the elements the pivot is
    not smaller than. *)
Lemma bisect_place (steps : nat) x run (lo hi : nat) :
  x.1 ∈ ks → keyed_in run → StronglySorted not_after run →
  (lo < hi ≤ length run)%nat → (hi - lo ≤ steps)%nat →
  (∀ j y, (j < lo)%nat → run !! j = Some y → lt_bool x.1 y.1 = false) →
  (∀ j y, (hi ≤ j)%nat → run !! j = Some y → lt_bool x.1 y.1 = true) →
  ∃ i, bisect steps x.1 run lo hi = Ok i
       ∧ (i ≤ length run)%nat
       ∧ (∀ j y, (j < i)%nat → run !! j = Some y → lt_bool x.1 y.1 = false)
       ∧ (∀ j y, (i ≤ j)%nat → run !! j = Some y → lt_bool x.1 y.1 = true).
Proof.
  intros Hx Hrun Hs. revert lo hi.
  induction steps as [|steps IH]; intros lo hi Hlohi Hsteps Hlo Hhi; [lia|].
  cbn [bisect]. set (p := (lo + (hi - lo) / 2)%nat).
  assert (lo ≤ p < hi)%nat as Hp.
  { unfold p. split; [lia|].
    assert ((hi - lo) / 2 < hi - lo)%nat; [|lia].
    apply Nat.div_lt; lia. }
  destruct (lookup_lt_is_Some_2 run p ltac:(lia)) as [y Hy]. rewrite Hy.
  assert (y.1 ∈ ks) as Hyk.
  { eapply Forall_forall in Hrun; [done|]. by eapply list_elem_of_lookup_2. }
  rewrite py_lt_consistent by done. cbn [mbind result_bind].
  destruct (lt_bool x.1 y.1) eqn:Hlt.
  - assert (∀ j z, (p ≤ j)%nat → run !! j = Some z → lt_bool x.1 z.1 = true)
      as Hhi'.
    { intros j z Hj Hz. apply (lt_bool_mono x y z); try done.
      - eapply Forall_forall in Hrun; [done|]. by eapply list_elem_of_lookup_2.
      - by apply (sorted_lookup run p j). }
    destruct (Nat.ltb_spec lo p).
    + apply IH; [lia | | done | done].
      assert ((hi - lo) / 2 < hi - lo)%nat by (apply Nat.div_lt; lia).
      unfold p. lia.
    + exists lo. split; [done|]. split; [lia|]. split; [done|].
      intros j z Hj. apply Hhi'. lia.
  - assert (∀ j z, (j < S p)%nat → run !! j = Some z → lt_bool x.1 z.1 = false)
      as Hlo'.
    { intros j z Hj Hz. destruct (lt_bool x.1 z.1) eqn:Hxz; [|done].
      assert (z.1 ∈ ks) as Hzk.
      { eapply Forall_forall in Hrun; [done|]. by eapply list_elem_of_lookup_2. }
      rewrite (lt_bool_mono x z y) in Hlt; try done.
      apply (sorted_lookup run j p); [done | done | lia | done | done]. }
    destruct (Nat.ltb_spec (S p) hi).
    + apply IH; [lia | | done | done].
      unfold p. lia.
    + exists (S p). split; [done|]. split; [lia|]. split; [done|].
      intros j z Hj. apply Hhi. lia.
Qed.

Lemma binary_insert_behind run x :
  x.1 ∈ ks → keyed_in run → StronglySorted not_after run →
  binary_insert run x = Ok (insert_behind x run).
Proof.
  intros Hx Hrun Hs. unfold binary_insert.
  destruct run as [|y run'] eqn:Heq; [done|]. rewrite <- Heq in *.
  assert (0 < length run)%nat by (rewrite Heq; simpl; lia).
  destruct (bisect_place (length run) x run 0 (length run))
    as (i & -> & Hi & Hlo & Hhi); try done; try lia.
  { intros j z Hj Hz. apply lookup_lt_Some in Hz. lia. }
  cbn [mbind result_bind]. f_equal. symmetry.
  apply insert_behind_at; [done | | done]. intros z. by apply Hhi.
Qed.

Lemma binarysort_stable run l :
  keyed_in l → keyed_in run → StronglySorted not_after run →
  binarysort run l = Ok (foldl (λ acc x, insert_behind x acc) run l).
Proof.
  unfold binarysort. revert run.
  induction l as [|x l IH]; intros run Hl Hrun Hs; simpl; [done|].
  apply Forall_cons in Hl as [Hx Hl].
  rewrite binary_insert_behind by done. cbn [mbind result_bind].
  apply IH; [done | by apply insert_behind_keyed | by apply insert_behind_sorted].
Qed.

(** The run the list starts with, sorted, is that run as it is when it
    never descends, and that run reversed when it descends. *)
Lemma run_ascending_stable (prev : json) l acc :
  prev ∈ ks → keyed_in l → keyed_in acc →
  Forall (λ y, lt_bool prev y.1 = false) acc →
  ∃ n, run_ascending prev l = Ok n ∧ (n ≤ length l)%nat
       ∧ foldl (λ acc x, insert_behind x acc) acc (take n l)
         = acc ++ take n l.
Proof.
  revert prev acc.
  induction l as [|x l IH]; intros prev acc Hprev Hl Hacc Hall; simpl.
  - exists 0%nat. by rewrite app_nil_r.
  - apply Forall_cons in Hl as [Hx Hl].
    rewrite py_lt_consistent by done. cbn [mbind result_bind].
    destruct (lt_bool x.1 prev) eqn:Hlt.
    + exists 0%nat. simpl. split; [done|]. split; [lia|]. by rewrite app_nil_r.
    + assert (Forall (λ y, not_after y x) acc) as Hbehind.
      { apply Forall_forall. intros y Hy.
        apply (not_after_trans y (prev, x.2) x); try done.
        - by eapply Forall_forall in Hacc.
        - by eapply Forall_forall in Hall. }
      destruct (IH x.1 (acc ++ [x])) as (n & -> & Hn & Hfold); try done.
      { apply Forall_app. split; [done|]. by constructor. }
      { apply Forall_app. split; [done|].
        constructor; [by apply lt_bool_irrefl | done]. }
      exists (S n). cbn [mbind result_bind]. split; [done|].
      split; [simpl; lia|]. simpl.
      rewrite insert_behind_last by done. by rewrite Hfold, <- app_assoc.
Qed.

Lemma run_descending_stable (prev : json) l y acc :
  y.1 = prev → y.1 ∈ ks → keyed_in l →
  ∃ n, run_descending prev l = Ok n ∧ (n ≤ length l)%nat
       ∧ foldl (λ acc x, insert_behind x acc) (y :: acc) (take n l)
         = reverse (take n l) ++ y :: acc.
Proof.
  revert prev y acc.
  induction l as [|x l IH]; intros prev y acc <- Hy Hl; simpl.
  - by exists 0%nat.
  - apply Forall_cons in Hl as [Hx Hl].
    rewrite py_lt_consistent by done. cbn [mbind result_bind].
    destruct (lt_bool x.1 y.1) eqn:Hlt.
    + destruct (IH x.1 x (y :: acc)) as (n & -> & Hn & Hfold); try done.
      exists (S n). cbn [mbind result_bind]. split; [done|].
      split; [simpl; lia|]. simpl. rewrite Hlt, Hfold.
      by rewrite reverse_cons, <- app_assoc.
    + exists 0%nat. split; [done|]. split; [lia | done].
Qed.

Lemma count_run_stable l :
  (2 ≤ length l)%nat → keyed_in l →
  ∃ n descending,
    count_run l = Ok (n, descending)
    ∧ (if descending : bool then reverse (take n l) else take n l)
      = stable_sorted (take n l).
Proof.
  destruct l as [|x [|y l]]; simpl; try lia. intros _ Hl.
  apply Forall_cons in Hl as [Hx Hl]. apply Forall_cons in Hl as [Hy Hl].
  rewrite py_lt_consistent by done. cbn [mbind result_bind].
  unfold stable_sorted.
  destruct (lt_bool y.1 x.1) eqn:Hlt.
  - destruct (run_descending_stable y.1 l y [x]) as (n & -> & Hn & Hfold);
      try done.
    exists (S (S n)), true. cbn [mbind result_bind]. split; [done|].
    simpl. rewrite Hlt, Hfold.
    by rewrite !reverse_cons, <- !app_assoc.
  - destruct (run_ascending_stable y.1 l [x; y]) as (n & -> & Hn & Hfold);
      try done.
    { by repeat constructor. }
    { constructor; [done|]. constructor; [by apply lt_bool_irrefl | done]. }
    exists (S (S n)), false. cbn [mbind result_bind]. split; [done|].
    simpl. by rewrite Hlt, Hfold.
Qed.

(** Under a consistent order the sort of a short list returns, and
    returns the stable sort. *)
Lemma sort_one_run_stable l :
  keyed_in l → sort_one_run l = Ok (stable_sorted l).
Proof.
  intros Hl. unfold sort_one_run.
  destruct (Nat.ltb_spec (length l) 2) as [Hlen|Hlen].
  { by destruct l as [|x [|y l]]; simpl in *; try lia. }
  destruct (count_run_stable l) as (n & descending & -> & Hrun); try done.
  cbn [mbind result_bind]. rewrite Hrun.
  assert (keyed_in (take n l)) as Htake.
  { unfold keys_among. rewrite <- (take_drop n l) in Hl.
    by apply Forall_app in Hl as [? _]. }
  rewrite binarysort_stable.
  - unfold stable_sorted. rewrite <- foldl_app. by rewrite take_drop.
  - unfold keys_among. rewrite <- (take_drop n l) in Hl.
    by apply Forall_app in Hl as [_ ?].
  - unfold keys_among. by rewrite stable_sorted_perm.
  - by apply stable_sorted_sorted.
Qed.
End Consistent.

(** An interpreter for running the model: it puts a long list in order
    the way it does a short one, which keeps what [list.sort] promises. *)
Definition one_run_timsort : Timsort :=
  {| merge_runs := λ A, sort_one_run;
     merge_runs_perm := λ A l l' _, sort_one_run_perm l l';
     merge_runs_stable := λ A l _ Hks,
       sort_one_run_stable l.*1 Hks l
         (proj2 (Forall_forall _ _)
            (λ x Hx, list_elem_of_fmap_2 fst l x Hx)) |}.

Section ListSortFacts.
Context {timsort : Timsort} {A : Type}.
Implicit Types (key : A → result json) (l : list A).

Lemma keyed_values key l keyed :
  mapR (λ x, k ← key x; Ok (k, x)) l = Ok keyed →
  keyed.*2 = l ∧ Forall (λ p, key p.2 = Ok p.1) keyed.
Proof.
  revert keyed. induction l as [|x l IH]; intros keyed; simpl.
  - by intros [= <-].
  - intros (p & (k & Hk & [= <-])%result_bind_ok & Hrest)%result_bind_ok.
    apply result_bind_ok in Hrest as (ps & [<- Hps]%IH & [= <-]).
    split; [done|]. by constructor.
Qed.

(** What [list.sort] returns is a rearrangement of the list. *)
Lemma list_sort_perm key l l' : list_sort key l = Ok l' → l' ≡ₚ l.
Proof.
  unfold list_sort.
  intros (keyed & [<- _]%keyed_values & Hs)%result_bind_ok.
  apply result_bind_ok in Hs as (sorted & Hs & [= <-]).
  apply fmap_Permutation.
  destruct (Nat.ltb_spec (length keyed) 64).
  - by apply sort_one_run_perm.
  - by apply merge_runs_perm.
Qed.

(** Over consistently ordered keys it returns, and returns the stable
    sort. *)
Lemma list_sort_stable key l keyed :
  mapR (λ x, k ← key x; Ok (k, x)) l = Ok keyed →
  consistent keyed.*1 →
  list_sort key l = Ok (stable_sorted keyed).*2.
Proof.
  intros Hkeyed Hks. unfold list_sort. rewrite Hkeyed.
  cbn [mbind result_bind].
  assert (keys_among keyed.*1 keyed) as Hin.
  { apply Forall_forall. intros x Hx. by apply list_elem_of_fmap_2. }
  destruct (Nat.ltb_spec (length keyed) 64).
  - by rewrite (sort_one_run_stable keyed.*1).
  - by rewrite merge_runs_stable.
Qed.
End ListSortFacts.

(** ** Numbers as keys *)

Lemma py_lt_num (a b : json) (x y : pyfloat) :
  num_of a = Some x → num_of b = Some y → py_lt a b = Ok (float_lt x y).
Proof. destruct a, b; simpl; try done; by intros [= <-] [= <-]. Qed.

Lemma Qlt_bool_true (q q' : Q) : Qlt_bool q q' = true → (q < q')%Q.
Proof.
  unfold Qlt_bool. intros Hlt%negb_true_iff.
  apply Qnot_le_lt. intros Hle%Qle_bool_iff. congruence.
Qed.

Lemma Qlt_bool_false (q q' : Q) : Qlt_bool q q' = false → (q' <= q)%Q.
Proof. unfold Qlt_bool. intros Hle%negb_false_iff. by apply Qle_bool_iff. Qed.

Lemma Qlt_bool_spec (q q' : Q) :
  reflect (q < q')%Q (Qlt_bool q q').
Proof.
  destruct (Qlt_bool q q') eqn:Hlt; constructor.
  - by apply Qlt_bool_true.
  - apply Qle_not_lt. by apply Qlt_bool_false.
Qed.

Lemma float_lt_asym (x y : pyfloat) : float_lt x y = true → float_lt y x = false.
Proof.
  destruct x as [p|[]|], y as [q|[]|]; simpl; try done.
  intros Hlt%Qlt_bool_true. destruct (Qlt_bool_spec q p) as [Hqp|]; [|done].
  destruct (Qlt_irrefl p). by apply (Qlt_trans p q p).
Qed.

Lemma float_not_lt_trans (x y z : pyfloat) :
  y ≠ NaN →
  float_lt y x = false → float_lt z y = false → float_lt z x = false.
Proof.
  destruct x as [p|[]|], y as [q|[]|], z as [r|[]|]; simpl; try done.
  intros _ Hpq%Qlt_bool_false Hqr%Qlt_bool_false.
  destruct (Qlt_bool_spec r p) as [Hrp|]; [|done].
  destruct (Qlt_irrefl r). apply (Qlt_le_trans r p r); [done|].
  by apply (Qle_trans p q r).
Qed.

Lemma float_lt_eq (x x' y y' : pyfloat) :
  float_eq x x' = true → float_eq y y' = true →
  float_lt x y = float_lt x' y'.
Proof.
  destruct x as [p|[]|], x' as [p'|[]|]; simpl; try done;
  destruct y as [q|[]|], y' as [q'|[]|]; simpl; try done.
  intros Hp%Qeq_bool_iff Hq%Qeq_bool_iff.
  destruct (Qlt_bool_spec p q) as [H|H], (Qlt_bool_spec p' q') as [H'|H'];
    try done.
  - exfalso. apply H'. by rewrite <- Hp, <- Hq.
  - exfalso. apply H. by rewrite Hp, Hq.
Qed.

(** Of two floats of which neither is NaN, one that is not larger is
    smaller or equal. *)
Lemma float_not_lt_le (x y : pyfloat) :
  x ≠ NaN → y ≠ NaN → float_lt y x = false → float_le x y = true.
Proof.
  unfold float_le.
  destruct x as [p|[]|], y as [q|[]|]; simpl; try done.
  intros _ _ Hle%Qlt_bool_false. apply orb_true_iff.
  destruct (Qlt_bool_spec p q) as [|Hnlt]; [by left | right].
  apply Qeq_bool_iff, Qle_antisym; [done|]. by apply Qnot_lt_le.
Qed.

(** Python's [<] orders numbers other than NaN consistently. *)
Lemma numbers_consistent (ks : list json) :
  Forall number_key ks → consistent ks.
Proof.
  intros Hks. rewrite Forall_forall in Hks. split; [|split].
  - intros a b (x & Hx & _)%Hks (y & Hy & _)%Hks.
    by rewrite (py_lt_num a b x y).
  - intros a b (x & Hx & _)%Hks (y & Hy & _)%Hks. unfold lt_bool.
    rewrite (py_lt_num a b x y), (py_lt_num b a y x) by done.
    apply float_lt_asym.
  - intros a b c (x & Hx & _)%Hks (y & Hy & Hnan)%Hks (z & Hz & _)%Hks.
    unfold lt_bool.
    rewrite (py_lt_num b a y x), (py_lt_num c b z y), (py_lt_num c a z x)
      by done.
    by apply float_not_lt_trans.
Qed.

Section NumericKeys.
Context {timsort : Timsort} {A : Type} (num : A → pyfloat).
Local Abbreviation keyed_num := (keyed_num num).

Lemma keyed_num_not_nan p : keyed_num p → num p.2 ≠ NaN.
Proof. intros (x & _ & Hx & Heq) Hnan. rewrite Hnan in Heq. by destruct x. Qed.

Lemma keyed_num_le p p' :
  keyed_num p → keyed_num p' → lt_bool p'.1 p.1 = false →
  float_le (num p.2) (num p'.2) = true.
Proof.
  intros Hp Hp' Hlt.
  pose proof (keyed_num_not_nan p Hp). pose proof (keyed_num_not_nan p' Hp').
  destruct Hp as (x & Hx & _ & Hxe), Hp' as (x' & Hx' & _ & Hxe').
  unfold lt_bool in Hlt. rewrite (py_lt_num _ _ x' x) in Hlt by done.
  apply float_not_lt_le; [done..|].
  by rewrite <- (float_lt_eq x' _ x _ Hxe' Hxe).
Qed.

(** Over keys that are the numbers of the entries, none of them NaN,
    [list.sort] returns, and returns the entries in order of number. *)
Lemma list_sort_sorted (key : A → result json) (l : list A) :
  Forall (λ x, ∃ k, key x = Ok k ∧ keyed_num (k, x)) l →
  ∃ l', list_sort key l = Ok l'
        ∧ StronglySorted (λ a b, float_le (num a) (num b) = true) l'.
Proof.
  intros Hl.
  assert (∃ keyed, mapR (λ x, k ← key x; Ok (k, x)) l = Ok keyed
                   ∧ Forall keyed_num keyed) as (keyed & Hkeyed & Hnum).
  { induction Hl as [|x l (k & Hk & Hx) _ (keyed & Hm & Hkeyed)]; simpl.
    - by eexists.
    - rewrite Hk. cbn [mbind result_bind]. rewrite Hm. cbn [mbind result_bind].
      eexists. split; [done|]. by constructor. }
  assert (consistent keyed.*1) as Hks.
  { apply numbers_consistent, Forall_fmap. eapply Forall_impl; [exact Hnum|].
    intros p (x & Hx & Hnan & _). by exists x. }
  rewrite (list_sort_stable key l keyed) by done.
  eexists. split; [done|].
  assert (keys_among keyed.*1 (stable_sorted keyed)) as Hin.
  { unfold keys_among. rewrite stable_sorted_perm.
    apply Forall_forall. intros x Hx. by apply list_elem_of_fmap_2. }
  pose proof (stable_sorted_sorted keyed.*1 Hks (stable_sorted keyed) ) as Hs.
  assert (Forall keyed_num (stable_sorted keyed)) as Hnum'
    by (by rewrite stable_sorted_perm).
  revert Hnum'.
  assert (StronglySorted (not_after (A:=A)) (stable_sorted keyed)) as Hsorted.
  { apply (stable_sorted_sorted keyed.*1 Hks).
    apply Forall_forall. intros x Hx. by apply list_elem_of_fmap_2. }
  clear -Hsorted.
  induction Hsorted as [|p r Hs IH Hall]; intros Hnum; simpl; constructor.
  - apply IH. by apply Forall_cons in Hnum as [_ ?].
  - apply Forall_cons in Hnum as [Hp Hr]. apply Forall_fmap, Forall_forall.
    intros p' Hp'. apply keyed_num_le; [done | | ].
    + by eapply Forall_forall in Hr.
    + by eapply Forall_forall in Hall.
Qed.
End NumericKeys.

(** Sorting at work: numbers of the three kinds; a key that cannot be
    compared; keys that are lists; and a NaN, which leaves 2 before 1. *)
Example sort_ex :
  list_sort (timsort := one_run_timsort) (λ v, Ok v)
    [JInt 3; JFloat (Finite (3 # 2)); JBool true; JInt 0]
  = Ok [JInt 0; JBool true; JFloat (Finite (3 # 2)); JInt 3].
Proof. reflexivity. Qed.
Example sort_mixed :
  list_sort (timsort := one_run_timsort) (λ v, Ok v) [JInt 3; JStr "a"]
  = Raise TypeError.
Proof. reflexivity. Qed.
Example sort_lists :
  list_sort (timsort := one_run_timsort) (λ v, Ok v)
    [JList [JInt 2]; JList [JInt 1; JInt 5]; JList [JInt 1]]
  = Ok [JList [JInt 1]; JList [JInt 1; JInt 5]; JList [JInt 2]].
Proof. reflexivity. Qed.
Example sort_nan :
  list_sort (timsort := one_run_timsort) (λ v, Ok v)
    [JInt 2; JFloat NaN; JInt 1]
  = Ok [JInt 2; JFloat NaN; JInt 1].
Proof. reflexivity. Qed.
Example sort_descending :
  list_sort (timsort := one_run_timsort) (λ v, Ok v)
    [JInt 5; JInt 4; JInt 3; JInt 7; JInt 1]
  = Ok [JInt 1; JInt 3; JInt 4; JInt 5; JInt 7].
Proof. reflexivity. Qed.

(** * What [extract_messages] returns *)

Lemma eq_str_true (v : json) (s : string) : eq_str v s = true → v = JStr s.
Proof. destruct v; try done. simpl. by intros ->%String.eqb_eq. Qed.

Lemma float_eq_refl (x : pyfloat) : x ≠ NaN → float_eq x x = true.
Proof.
  destruct x as [q|[]|]; simpl; try done. intros _. by apply Qeq_bool_iff.
Qed.

(** A flat record whose [create_time] is null or a number other than NaN
    has a numeric sort key, its creation time. *)
Lemma sort_key_timed (m : json) :
  obj_like m = true → timed (field_or m "create_time" JNull) = true →
  ∃ k, ChatGPTClient.sort_key m = Ok k ∧ keyed_num creation_time (k, m).
Proof.
  destruct m as [| | | | | |kvs]; try done. intros _.
  unfold ChatGPTClient.sort_key, dict_get_none, dict_get, creation_time,
    field_or, jfield, keyed_num.
  cbn [mbind result_bind fst snd].
  destruct (alist_get "create_time" kvs) as [v|]; cbn [default from_option id].
  - intros Hv. eexists. split; [done|]. unfold py_or.
    destruct v as [|[]|z|[q|neg|]| | |]; try done; cbn [truthy num_of].
    + by eexists.
    + by eexists.
    + by eexists.
    + destruct (Z.eqb_spec z 0) as [->|Hz]; cbn [negb num_of].
      * by eexists.
      * eexists. split; [done|]. split; [done|]. by apply Qeq_bool_iff.
    + destruct (Qeq_bool q 0) eqn:Hq; cbn [negb num_of].
      * apply Qeq_bool_iff in Hq. exists (Finite (inject_Z 0)).
        split; [done|]. split; [done|]. cbn [default from_option id].
        apply Qeq_bool_iff. by rewrite Hq.
      * eexists. split; [done|]. split; [done|]. by apply Qeq_bool_iff.
    + eexists. split; [done|]. split; [done|]. by destruct neg.
  - intros _. eexists. split; [done|]. by eexists.
Qed.

Section ExtractClaims.
Context {platform : Platform} {timsort : Timsort}.

Lemma message_of_obj (item : string * json) : obj_like (message_of item) = true.
Proof. done. Qed.

Lemma message_of_create_time (item : string * json) :
  field_or (message_of item) "create_time" JNull
  = field_or (node_message item.2) "create_time" JNull.
Proof. done. Qed.

Lemma kept_elem (item : string * json) (m : json) :
  m ∈ kept item ↔ shown item.2 = true ∧ m = message_of item.
Proof.
  unfold kept. destruct (shown item.2).
  - rewrite list_elem_of_singleton. split; [by intros -> | by intros [_ ->]].
  - rewrite elem_of_nil. by split; [|intros [? _]].
Qed.

(** [extract_messages] sorts the records of the kept nodes. *)
Lemma extract_messages_flat (data : json) (msgs : list json) :
  ChatGPTClient.extract_messages data = Ok msgs →
  list_sort ChatGPTClient.sort_key (mapping_of data ≫= kept) = Ok msgs.
Proof.
  unfold ChatGPTClient.extract_messages, mapping_of.
  intros (mapping & [_ ->]%dict_get_field & Hr)%result_bind_ok.
  apply result_bind_ok in Hr as (items & Hitems & Hr).
  destruct (field_or data "mapping" (JObj [])); try done.
  injection Hitems as ->.
  by apply result_bind_ok in Hr as (messages & ->%extract_loop_kept & Hr).
Qed.

Lemma extract_messages_schema (data : json) :
  conversation_schema data = true →
  ChatGPTClient.extract_messages data
  = list_sort ChatGPTClient.sort_key (mapping_of data ≫= kept)
  ∧ Forall (λ m, obj_like m = true
                 ∧ timed (field_or m "create_time" JNull) = true)
      (mapping_of data ≫= kept).
Proof.
  intros [Hdata Hmapping]%andb_true_iff.
  unfold ChatGPTClient.extract_messages, mapping_of.
  rewrite dict_get_obj by done. cbn [mbind result_bind].
  destruct (field_or data "mapping" (JObj [])) as [| | | | | |nodes]; try done.
  cbn [dict_items mbind result_bind].
  rewrite extract_loop_schema by done. cbn [mbind result_bind app].
  split; [done|]. apply Forall_forall. intros m (item & Hm & Hitem)%list_elem_of_bind.
  apply kept_elem in Hm as [Hshown ->]. split; [done|].
  rewrite message_of_create_time.
  rewrite forallb_forall in Hmapping.
  apply list_elem_of_In, Hmapping in Hitem.
  apply andb_true_iff in Hitem as [_ Hmsg]. unfold message_schema in Hmsg.
  unfold shown in Hshown.
  destruct (truthy (node_message item.2)); [|done]. cbn [negb orb] in Hmsg.
  by apply andb_true_iff in Hmsg as [_ ?].
Qed.

(** C2, as amended.  On conversation data of the service's shape, in
    which every [create_time] is null or a number other than NaN,
    [extract_messages] returns the flat records (identifier, role, text,
    creation time, parent link) of the mapping's kept nodes in
    non-decreasing order of creation time, a missing or null one counting
    as 0.  And whatever list it returns, on any data, is a rearrangement
    of those records and is in that order if the creation times in it are
    null or numbers other than NaN. *)
Theorem extract_messages_time_ordered (data : json) :
  (∀ msgs,
     ChatGPTClient.extract_messages data = Ok msgs →
     msgs ≡ₚ mapping_of data ≫= kept
     ∧ (Forall (λ m, timed (field_or m "create_time" JNull) = true) msgs →
        StronglySorted
          (λ a b, float_le (creation_time a) (creation_time b) = true) msgs))
  ∧ (conversation_schema data = true →
     ∃ msgs,
       ChatGPTClient.extract_messages data = Ok msgs
       ∧ msgs ≡ₚ mapping_of data ≫= kept
       ∧ StronglySorted
           (λ a b, float_le (creation_time a) (creation_time b) = true) msgs).
Proof.
  split.
  - intros msgs Hsort%extract_messages_flat.
    pose proof (list_sort_perm _ _ _ Hsort) as Hperm. split; [done|].
    intros Htimed. rewrite Hperm in Htimed.
    destruct (list_sort_sorted creation_time ChatGPTClient.sort_key
                (mapping_of data ≫= kept)) as (l' & Hl' & Hsorted).
    { apply Forall_forall. intros m Hm.
      apply sort_key_timed; [|by eapply Forall_forall in Htimed].
      apply list_elem_of_bind in Hm as (item & [_ ->]%kept_elem & _).
      apply message_of_obj. }
    rewrite Hsort in Hl'. by injection Hl' as <-.
  - intros [Hrun Hall]%extract_messages_schema.
    destruct (list_sort_sorted creation_time ChatGPTClient.sort_key
                (mapping_of data ≫= kept)) as (msgs & Hsort & Hsorted).
    { eapply Forall_impl; [exact Hall|].
      intros m [Hobj Htimed]. by apply sort_key_timed. }
    exists msgs. rewrite Hrun. split; [done|].
    split; [by eapply list_sort_perm | done].
Qed.

(** C8.  Every record [extract_messages] returns is the record of a node
    of the mapping that has a message, whose message is not marked hidden,
    whose content type is ["text"], and whose content string is not empty
    once stripped; the records returned are those of the kept nodes and no
    others, so a node without a message, with a hidden message, with
    content that is not text, or with only blank parts gives none. *)
Theorem extract_messages_visible_text (data : json) (msgs : list json) :
  ChatGPTClient.extract_messages data = Ok msgs →
  msgs ≡ₚ mapping_of data ≫= kept
  ∧ Forall (λ m, ∃ item text,
              item ∈ mapping_of data
              ∧ m = message_of item
              ∧ truthy (node_message item.2) = true
              ∧ marked_hidden (node_message item.2) = false
              ∧ content_type_of (node_message item.2) = JStr "text"
              ∧ jfield m "content" = Some (JStr text)
              ∧ strip text ≠ "") msgs
  ∧ (∀ item,
       truthy (node_message item.2) = false
       ∨ marked_hidden (node_message item.2) = true
       ∨ content_type_of (node_message item.2) ≠ JStr "text"
       ∨ strip (message_text (node_message item.2)) = "" →
       kept item = []).
Proof.
  intros Hperm%extract_messages_flat%list_sort_perm. split; [done|]. split.
  - rewrite Hperm. apply Forall_forall.
    intros m (item & [Hshown ->]%kept_elem & Hitem)%list_elem_of_bind.
    exists item, (message_text (node_message item.2)).
    unfold shown in Hshown.
    repeat (apply andb_true_iff in Hshown as [Hshown ?]).
    split; [done|]. split; [done|]. split; [done|].
    split; [by apply negb_true_iff|]. split; [by apply eq_str_true|].
    split; [done|]. by destruct (strip _).
  - intros item Hout. unfold kept, shown.
    destruct Hout as [->|[->|[Hct| ->]]]; try done.
    + by rewrite andb_false_r.
    + destruct (eq_str _ "text") eqn:Heq; [by apply eq_str_true in Heq|].
      by rewrite andb_false_r.
    + by rewrite andb_false_r.
Qed.
End ExtractClaims.

(** A conversation of three nodes: a root without message, and two text
    messages whose creation times are out of order in the mapping. *)
Lemma extract_messages_time_ordered_witness :
  let data :=
    JObj [("title", JStr "T");
          ("mapping",
           JObj [("root", JObj [("message", JNull); ("parent", JNull)]);
                 ("b", text_node "a" "second" (JFloat (Finite (5 # 2))));
                 ("a", text_node "root" "first" (JFloat (Finite (3 # 2))))])] in
  ∃ msgs,
    ChatGPTClient.extract_messages
      (platform := demo_platform) (timsort := one_run_timsort) data = Ok msgs
    ∧ StronglySorted
        (λ a b, float_le (creation_time a) (creation_time b) = true) msgs
    ∧ (λ m, field_or m "id" JNull) <$> msgs = [JStr "a"; JStr "b"].
Proof.
  intros data.
  destruct (extract_messages_time_ordered
              (platform := demo_platform) (timsort := one_run_timsort) data)
    as [_ Hschema].
  destruct Hschema as (msgs & Hrun & _ & Hsorted); [by vm_compute|].
  exists msgs. split; [exact Hrun|]. split; [exact Hsorted|].
  assert (ChatGPTClient.extract_messages
            (platform := demo_platform) (timsort := one_run_timsort) data
          = Ok [message_of (platform := demo_platform)
                  ("a", text_node "root" "first" (JFloat (Finite (3 # 2))));
                message_of (platform := demo_platform)
                  ("b", text_node "a" "second" (JFloat (Finite (5 # 2))))])
    as Hval by (by vm_compute).
  rewrite Hrun in Hval. injection Hval as ->. by vm_compute.
Defined.

(** C2, as stated, fails.  With a [create_time] that is NaN, as the
    decoder reads it from the literal [NaN], the sort leaves the message
    of time 2 before the message of time 1; and on a dict whose mapping
    holds something that is not an object the call raises. *)
Lemma extract_messages_nan_unordered :
  let data :=
    JObj [("mapping",
           JObj [("a", text_node "root" "two" (JInt 2));
                 ("b", text_node "a" "not a number" (JFloat NaN));
                 ("c", text_node "b" "one" (JInt 1))])] in
  let msgs :=
    message_of (platform := demo_platform) <$>
      [("a", text_node "root" "two" (JInt 2));
       ("b", text_node "a" "not a number" (JFloat NaN));
       ("c", text_node "b" "one" (JInt 1))] in
  ChatGPTClient.extract_messages
    (platform := demo_platform) (timsort := one_run_timsort) data = Ok msgs
  ∧ creation_time <$> msgs
    = [Finite (inject_Z 2); NaN; Finite (inject_Z 1)]
  ∧ ¬ StronglySorted
        (λ a b, float_le (creation_time a) (creation_time b) = true) msgs
  ∧ ChatGPTClient.extract_messages
      (platform := demo_platform) (timsort := one_run_timsort)
      (JObj [("mapping", JObj [("a", JInt 5)])])
    = Raise AttributeError.
Proof.
  intros data msgs. split; [by vm_compute|]. split; [by vm_compute|].
  split; [|by vm_compute].
  intros Hs. apply StronglySorted_inv in Hs as [_ Hall].
  apply Forall_cons in Hall as [Hnan _]. by vm_compute in Hnan.
Qed.

(** The same conversation with a hidden message and a blank one added:
    neither is returned. *)
Lemma extract_messages_visible_text_witness :
  let node (meta : list (string * json)) (text : string) :=
    JObj [("message",
           JObj [("author", JObj [("role", JStr "system")]);
                 ("content", JObj [("content_type", JStr "text");
                                   ("parts", JList [JStr text])]);
                 ("metadata", JObj meta)])] in
  let data :=
    JObj [("mapping",
           JObj [("h", node [("is_visually_hidden_from_conversation",
                              JBool true)] "secret");
                 ("w", node [] "   ");
                 ("v", node [] "shown")])] in
  let msgs := [message_of (platform := demo_platform) ("v", node [] "shown")] in
  ChatGPTClient.extract_messages
    (platform := demo_platform) (timsort := one_run_timsort) data = Ok msgs
  ∧ Forall (λ m, ∃ text, jfield m "content" = Some (JStr text)
                         ∧ strip text ≠ "") msgs.
Proof.
  intros node data msgs.
  assert (ChatGPTClient.extract_messages
            (platform := demo_platform) (timsort := one_run_timsort) data
          = Ok msgs) as Hrun by (by vm_compute).
  split; [exact Hrun|].
  destruct (extract_messages_visible_text
              (platform := demo_platform) (timsort := one_run_timsort)
              data msgs Hrun) as (_ & Hall & _).
  eapply Forall_impl; [exact Hall|].
  intros m (item & text & _ & _ & _ & _ & _ & Hc & Hs). by exists text.
Defined.

(** * Further properties of the archive readers *)

Lemma leb_trans (s1 s2 s3 : string) :
  String.leb s1 s2 = true → String.leb s2 s3 = true → String.leb s1 s3 = true.
Proof.
  unfold String.leb. revert s2 s3.
  induction s1 as [|c1 s1 IH]; intros [|c2 s2] [|c3 s3]; simpl; try done.
  unfold Ascii.compare.
  destruct (N.compare_spec (N_of_ascii c1) (N_of_ascii c2)) as [H12|H12|H12];
    destruct (N.compare_spec (N_of_ascii c2) (N_of_ascii c3)) as [H23|H23|H23];
    destruct (N.compare_spec (N_of_ascii c1) (N_of_ascii c3)) as [H13|H13|H13];
    try done; try lia.
  apply IH.
Qed.

#[local] Instance name_ge_trans : Transitive name_ge.
Proof. intros a b c Hab Hbc. unfold name_ge in *. by eapply leb_trans. Qed.

#[local] Instance name_ge_total : Total name_ge.
Proof. intros a b. unfold name_ge. destruct (String.leb_total a b); auto. Qed.

#[local] Instance name_ge_antisym : AntiSymm eq name_ge.
Proof. intros a b Hab Hba. by apply String.leb_antisym. Qed.






Section Listings.
Context {platform : Platform}.







Context {listing : Listing}.



End Listings.
(** * Further properties of looking up and saving *)

Section LookupMore.
Context {platform : Platform} {listing : Listing}.






End LookupMore.






Section SaveMore.
Context {platform : Platform} {listing : Listing}.
Import mcp_server.

Variables (env : draw) (title summary : string) (messages : list json).
Variables (tags key_points : option (list string)).

Let d := strftime_date (utcnow env).
Let f := uuid4 env +:+ ".json".
Let payload := payload_of env title summary messages tags key_points.




End SaveMore.



Section SaveEdges.
Context {platform : Platform}.
Import mcp_server.

Variables (env : draw) (title summary : string) (messages : list json).
Variables (tags key_points : option (list string)).

Let d := strftime_date (utcnow env).
Let f := uuid4 env +:+ ".json".
Let payload := payload_of env title summary messages tags key_points.



End SaveEdges.





(** * Further properties of the fetch client *)


Section FetchMore.
Context {platform : Platform}.
Variable server : list ChatGPTClient.request → ChatGPTClient.request
                  → ChatGPTClient.response.
Import ChatGPTClient.




End FetchMore.




(** * The identifier (uuid.uuid4) *)

Section Identifier.
Import mcp_server.

Lemma append_cons (c : ascii) (s t : string) :
  String c s +:+ t = String c (s +:+ t).
Proof. reflexivity. Qed.

Lemma str_forall_app (P : ascii → bool) (s t : string) :
  str_forall P (s +:+ t) = str_forall P s && str_forall P t.
Proof.
  induction s as [|c s IH]; [done|].
  rewrite append_cons. simpl. by rewrite IH, andb_assoc.
Qed.

Lemma str_forall_take (P : ascii → bool) (n : nat) (s : string) :
  str_forall P s = true → str_forall P (str_take n s) = true.
Proof.
  revert s. induction n as [|n IH]; intros [|c s]; simpl; try done.
  intros [Hc Hs]%andb_true_iff. by rewrite Hc, IH.
Qed.

Lemma str_forall_drop (P : ascii → bool) (n : nat) (s : string) :
  str_forall P s = true → str_forall P (str_drop n s) = true.
Proof.
  revert s. induction n as [|n IH]; intros [|c s]; simpl; try done.
  intros [Hc Hs]%andb_true_iff. by apply IH.
Qed.

Lemma str_take_length (n : nat) (s : string) :
  (n ≤ String.length s)%nat → String.length (str_take n s) = n.
Proof.
  revert s. induction n as [|n IH]; intros [|c s]; simpl; try done; try lia.
  intros Hn. rewrite IH; lia.
Qed.

Lemma str_drop_length (n : nat) (s : string) :
  String.length (str_drop n s) = (String.length s - n)%nat.
Proof. revert s. induction n as [|n IH]; intros [|c s]; simpl; try done. Qed.

Lemma hex_length (width : nat) (n : N) : String.length (hex width n) = width.
Proof.
  revert n. induction width as [|width IH]; intros n; simpl; [done|].
  rewrite length_append, IH. simpl. lia.
Qed.

Lemma hex_digit_hex (n : N) : (n < 16)%N → hex_or_dash (hex_digit n) = true.
Proof.
  intros Hn.
  assert (forallb (λ k, hex_or_dash (hex_digit (N.of_nat k))) (seq 0 16) = true)
    as Hall by (by vm_compute).
  rewrite forallb_forall in Hall. specialize (Hall (N.to_nat n)).
  rewrite N2Nat.id in Hall. apply Hall, in_seq. lia.
Qed.

Lemma hex_digits (width : nat) (n : N) :
  str_forall hex_or_dash (hex width n) = true.
Proof.
  revert n. induction width as [|width IH]; intros n; simpl; [done|].
  rewrite str_forall_app, IH. simpl.
  rewrite hex_digit_hex; [done|]. by apply N.mod_lt.
Qed.

(** X16.  The identifier of a saved conversation is a string of 36
    characters, each a lower-case hexadecimal digit or a dash; so the name
    of its file has no path separator in it. *)
Theorem uuid4_shape (env : draw) :
  String.length (uuid4 env) = 36%nat
  ∧ str_forall hex_or_dash (uuid4 env) = true
  ∧ str_forall (λ c, negb (Ascii.eqb c "/"))
      (uuid4 env +:+ ".json") = true.
Proof.
  unfold uuid4, uuid_str.
  set (h := hex 32 _).
  assert (String.length h = 32%nat) as Hlen by apply hex_length.
  assert (str_forall hex_or_dash h = true) as Hhex by apply hex_digits.
  assert (str_forall hex_or_dash
            (str_take 8 h +:+ "-" +:+ str_take 4 (str_drop 8 h) +:+ "-"
             +:+ str_take 4 (str_drop 12 h) +:+ "-"
             +:+ str_take 4 (str_drop 16 h) +:+ "-" +:+ str_drop 20 h) = true)
    as Hall.
  { rewrite !str_forall_app.
    rewrite !str_forall_take, !str_forall_drop; try done;
      by apply str_forall_drop. }
  split; [|split; [done|]].
  - rewrite !length_append, !str_take_length, !str_drop_length;
      rewrite ?str_drop_length, ?Hlen; simpl; lia.
  - rewrite str_forall_app. apply andb_true_iff. split; [|done].
    revert Hall. generalize (str_take 8 h +:+ "-" +:+ str_take 4 (str_drop 8 h) +:+ "-"
             +:+ str_take 4 (str_drop 12 h) +:+ "-"
             +:+ str_take 4 (str_drop 16 h) +:+ "-" +:+ str_drop 20 h).
    intros s. induction s as [|c s IH]; simpl; [done|].
    intros [Hc Hs]%andb_true_iff. rewrite IH by done.
    rewrite andb_true_r. unfold hex_or_dash in Hc.
    destruct (Ascii.eqb_spec c "/") as [->|]; [by vm_compute in Hc | done].
Qed.
End Identifier.
